(** * NSW Transport incident feed platform: a shallow embedding

    Source: homeassistant/components/nsw_transport_incident_service_feed/geo_location.py

    The development follows the layout of the Python module: the values and
    string operations of the language that the module relies on ([Py]), the
    configuration schema and the platform bootstrap, the feed entity manager
    ([Manager]), the location event entity ([LocationEvent]), and then the
    properties.

    Conventions.
    - Python [str] is embedded as [string].  [lower] is [str.lower] on ASCII
      text ([is_ascii]); beyond ASCII [str.lower] follows the Unicode case
      tables, which are not embedded, so statements about lowercased text are
      made for ASCII text.  Every string that reaches [lower] in this module
      comes from the two schema-restricted options [hazards] and
      [hazardsState], whose admissible values are ASCII.
    - Durations ([timedelta]) are whole seconds in [Z].
    - [_LOGGER.debug] calls have no effect on any state modelled here and are
      left out. *)

From Stdlib Require Import ZArith String Ascii List Bool Lia.
From Stdlib Require Import Numbers.DecimalString Numbers.DecimalPos Floats.SpecFloat.
From stdpp Require Import base option list gmap strings.

Local Open Scope string_scope.
Local Open Scope Z_scope.

(* ====================================================================== *)
(** * The Python values the module handles *)
(* ====================================================================== *)

Module Py.

(** A Python float, as the IEEE specification datum. *)
Definition float := spec_float.

(** Values found in feed entries, entity attributes and raw configuration. *)
Inductive value :=
| VNone
| VBool (b : bool)
| VInt (z : Z)
| VFloat (f : float)
| VStr (s : string)
| VDatetime (seconds : Z).

#[global] Instance float_eq_dec : EqDecision float.
Proof. unfold float. solve_decision. Defined.

#[global] Instance value_eq_dec : EqDecision value.
Proof. solve_decision. Defined.

(** [bool(v)], the test behind [if value]. *)
Definition truthy (v : value) : bool :=
  match v with
  | VNone => false
  | VBool b => b
  | VInt z => negb (z =? 0)
  | VFloat f => match f with S754_zero _ => false | _ => true end
  | VStr s => negb (String.eqb s "")
  | VDatetime _ => true
  end.

(** [isinstance(v, bool)]. *)
Definition isinstance_bool (v : value) : bool :=
  match v with VBool _ => true | _ => false end.

(** Exceptions the module can raise. *)
Inductive exn := TypeError | AttributeError | IndexError.

Inductive outcome (A : Type) :=
| Ok (a : A)
| Raise (e : exn).
Arguments Ok {A} a.
Arguments Raise {A} e.

(** ** [str.lower], [str.startswith] *)

(** [str.isascii]: every character is below 128. *)
Fixpoint is_ascii (s : string) : bool :=
  match s with
  | EmptyString => true
  | String c r => (Nat.ltb (nat_of_ascii c) 128 && is_ascii r)%bool
  end.

Definition ascii_lower (c : ascii) : ascii :=
  let n := nat_of_ascii c in
  if (Nat.leb 65 n && Nat.leb n 90)%bool then ascii_of_nat (n + 32) else c.

(** [str.lower] on ASCII text: the letters "A" to "Z" go to "a" to "z" and
    every other character stays.  On text that is not [is_ascii] Python
    consults the Unicode case tables (the Kelvin sign U+212A lowercases to
    "k"); this function does not, and is not [str.lower] there. *)
Fixpoint lower (s : string) : string :=
  match s with
  | EmptyString => EmptyString
  | String c r => String (ascii_lower c) (lower r)
  end.

Definition startswith (s p : string) : bool := String.prefix p s.

(** ** [re.sub("<[^<]+?>", "", s)]

    The pattern is a "<", one character other than "<", then as few further
    characters other than "<" as possible, then ">".  No match is empty, so
    the substitution is a single left-to-right scan: where a match starts
    it is dropped and the scan resumes behind it, elsewhere one character is
    kept and the scan moves on by one. *)

(** The lazy tail of the pattern, entered once "<" and a first character
    have been consumed: stop at the first ">"; a "<" can be consumed neither
    by the class nor by the closing ">", so the attempt fails; so does the
    end of the text.  The result is the text behind the match. *)
Fixpoint tag_close (s : string) : option string :=
  match s with
  | EmptyString => None
  | String c r =>
      if Ascii.eqb c ">" then Some r
      else if Ascii.eqb c "<" then None
      else tag_close r
  end.

(** A match of the pattern anchored at the head of [s]. *)
Definition tag_match (s : string) : option string :=
  match s with
  | String c0 (String c1 r) =>
      if Ascii.eqb c0 "<" && negb (Ascii.eqb c1 "<") then tag_close r
      else None
  | _ => None
  end.

Fixpoint sub_tags (fuel : nat) (s : string) : string :=
  match fuel, s with
  | _, EmptyString => EmptyString
  | O, _ => s
  | S f, String c r =>
      match tag_match s with
      | Some rest => sub_tags f rest
      | None => String c (sub_tags f r)
      end
  end.

(** Every step of the scan consumes at least one character, so the length
    of the text is fuel enough. *)
Definition re_sub_tags (s : string) : string := sub_tags (String.length s) s.

(** [re.sub] demands a [str] subject. *)
Definition re_sub (v : value) : outcome string :=
  match v with
  | VStr s => Ok (re_sub_tags s)
  | _ => Raise TypeError
  end.

(** ** Subscripts

    What an attribute that should hold a tuple can hold: a tuple of any
    length, or [None]. *)
Inductive tuple_or_none :=
| PyNone
| PyTuple (items : list value).

(** [o[i]]: [None] is not subscriptable, and a tuple has no item at or
    beyond its length. *)
Definition getitem (o : tuple_or_none) (i : nat) : outcome value :=
  match o with
  | PyNone => Raise TypeError
  | PyTuple items =>
      match items !! i with
      | Some v => Ok v
      | None => Raise IndexError
      end
  end.

End Py.
Import Py.

(* ====================================================================== *)
(** * Module constants *)
(* ====================================================================== *)

(** [ATTR_ATTRIBUTION] is imported from [homeassistant.const]; its value is
    the one the module's own commented-out definition shows. *)
Definition ATTR_ATTRIBUTION := "attribution".
Definition ATTR_TITLE := "title".
Definition ATTR_CATEGORY := "category".
Definition ATTR_EXTERNAL_ID := "external_id".
Definition ATTR_PUBLICATION_DATE := "publication_date".
Definition ATTR_DESCRIPTION := "description".
Definition ATTR_PUBLICTRANSPORT := "publicTransport".
Definition ATTR_ADVICEA := "adviceA".
Definition ATTR_ADVICEB := "adviceB".
Definition ATTR_ADVICEOTHER := "adviceOther".
Definition ATTR_ISMAJOR := "isMajor".
Definition ATTR_ISENDED := "isEnded".
Definition ATTR_ISNEW := "isNew".
Definition ATTR_ISIMPACTNETWORK := "isImpactNetwork".
Definition ATTR_DIVERSIONS := "diversions".
Definition ATTR_TYPE := "type".
Definition ATTR_SUBCATEGORY := "subCategory".
Definition ATTR_DURATION := "duration".
Definition ATTR_FEATURE_TYPE := "featureType".
Definition ATTR_ROAD := "road".
Definition ATTR_COUNCIL := "council".
Definition ATTR_PICTURE := "entity_picture".

Definition DEFAULT_UNIT_OF_MEASUREMENT := "km".

(** [timedelta(minutes=5)], in seconds. *)
Definition SCAN_INTERVAL : Z := 5 * 60.

(** The two format strings, applied to an external id. *)
Definition SIGNAL_DELETE_ENTITY (external_id : string) : string :=
  "nsw_transport_incident_service_feed_delete_" +:+ external_id.
Definition SIGNAL_UPDATE_ENTITY (external_id : string) : string :=
  "nsw_transport_incident_service_feed_update_" +:+ external_id.

Definition SOURCE := "nsw_transport_incident_service_feed".

Definition VALID_HAZARDS : list string :=
  ["alpine"; "fire"; "flood"; "incident"; "majorevent"; "roadwork"].

(** The list holds four strings and the [None] object besides. *)
Definition VALID_HAZARDS_STATE : list (option string) :=
  [Some "open"; Some "closed"; Some ""; None; Some "none"; Some "None"].

Definition DEFAULT_HAZARDS := "Incident".
Definition DEFAULT_HAZARDS_STATE := "Open".

(* ====================================================================== *)
(** * The configuration schema *)
(* ====================================================================== *)

Module Schema.

(** A scalar of the YAML configuration, before validation. *)
Inductive scalar :=
| Null
| Boolean (b : bool)
| Integer (z : Z)
| Text (s : string).

(** [vol.Coerce(str)]: Python's [str] on the scalar. *)
Definition Coerce_str (v : scalar) : string :=
  match v with
  | Null => "None"
  | Boolean true => "True"
  | Boolean false => "False"
  | Integer z => NilEmpty.string_of_int (Z.to_int z)
  | Text s => s
  end.

(** [vol.All(vol.Coerce(str), vol.In(VALID_HAZARDS))]: the validated value,
    or nothing when the validator rejects. *)
Definition hazards (v : scalar) : option string :=
  let s := Coerce_str v in
  if bool_decide (s ∈ VALID_HAZARDS) then Some s else None.

(** [vol.All(vol.Coerce(str), vol.In(VALID_HAZARDS_STATE))]; the membership
    test compares the coerced string with every element of the list. *)
Definition hazardsState (v : scalar) : option string :=
  let s := Coerce_str v in
  if bool_decide (Some s ∈ VALID_HAZARDS_STATE) then Some s else None.

End Schema.

(** A validated platform configuration.  The keys with a schema default are
    always present; the other three may be missing. *)
Record ConfigType := {
  CONF_SCAN_INTERVAL : option Z;
  CONF_LATITUDE : option float;
  CONF_LONGITUDE : option float;
  CONF_RADIUS : float;
  CONF_CATEGORIES : list string;
  CONF_HAZARDS : string;
  CONF_HAZARDS_STATE : string;
}.

(* ====================================================================== *)
(** * The feed adapter (library [aio_geojson_nsw_transport_incidents]) *)
(* ====================================================================== *)

Module FeedEntry.

(** The attributes of a feed entry that the module reads.  [coordinates] is
    the latitude and longitude pair of the adapter's data model; an entry
    object that holds [None] or a tuple of another length there is not of
    this type, and [LocationEvent._update_from_feed_with] is the refresh
    from such an object. *)
Record t := mk {
  attribution : value;
  title : value;
  category : value;
  external_id : string;
  publication_date : value;
  description : value;
  otherAdvice : value;
  publicTransport : value;
  adviceA : value;
  adviceB : value;
  adviceOther : value;
  isMajor : value;
  isEnded : value;
  isNew : value;
  isImpactNetwork : value;
  diversions : value;
  type : value;
  subCategory : value;
  duration : value;
  feature_type : value;
  road : value;
  council_area : value;
  distance_to_home : value;
  coordinates : value * value;
}.

#[global] Instance eq_dec : EqDecision t.
Proof. solve_decision. Defined.

End FeedEntry.

Module FeedManager.

(** The adapter as the module sees it: the arguments it was constructed
    with, the entries of its latest snapshot by external id, and the number
    of [update()] calls it has received. *)
Record t := mk {
  coordinates : float * float;
  filter_radius : float;
  filter_categories : list string;
  hazard : string;
  feed_entries : gmap string FeedEntry.t;
  update_calls : nat;
}.

(** The three callbacks the adapter was given. *)
Inductive callback :=
| generate (external_id : string)
| update_ (external_id : string)
| remove (external_id : string).

(** Modelled from the spec: [update()] of the external adapter.  Retrieval
    and parsing are outside the module, so the retrieved feed is an
    argument.  The adapter compares it with its last snapshot and calls back
    once per affected id: generate for a new id, update for an id whose
    entry changed, remove for an id no longer present. *)
Definition callbacks (old new : gmap string FeedEntry.t) : list callback :=
  (generate <$> filter (λ i, bool_decide (old !! i = None)) (map_to_list new).*1)
  ++ (update_ <$> filter (λ i, bool_decide (is_Some (old !! i) ∧ old !! i ≠ new !! i))
                    (map_to_list new).*1)
  ++ (remove <$> filter (λ i, bool_decide (new !! i = None)) (map_to_list old).*1).

Definition update (feed : gmap string FeedEntry.t) (fm : t) : t * list callback :=
  (mk (coordinates fm) (filter_radius fm) (filter_categories fm) (hazard fm)
      feed (S (update_calls fm)),
   callbacks (feed_entries fm) feed).

End FeedManager.

(* ====================================================================== *)
(** * The host ([homeassistant.core], [homeassistant.helpers]) *)
(* ====================================================================== *)

Module Hass.

(** An unsubscribe function returned by the host, by identity. *)
Definition handle := nat.

(** What a recurring timer runs. *)
Inductive action :=
| FeedManagerUpdate          (* the closure [update] of [async_init] *)
| OtherAction (tag : nat).   (* a timer of another component *)

(** What a dispatcher signal is connected to; entities by identity. *)
Inductive target :=
| DeleteCallback (entity : nat)   (* [entity._delete_callback] *)
| UpdateCallback (entity : nat)   (* [entity._update_callback] *)
| OtherTarget (tag : nat).

(** Listeners on the host's event bus. *)
Inductive listener :=
| start_feed_manager
| stop_feed_manager
| OtherListener (tag : nat).

(** Coroutines handed to the event loop. *)
Inductive task :=
| ManagerAsyncUpdate               (* [manager.async_update()] *)
| EntityAsyncRemove (entity : nat) (* [entity.async_remove()] *)
| EntityUpdateState (entity : nat) (* a state update with refresh *)
| OtherTask (tag : nat).

#[global] Instance action_eq_dec : EqDecision action.
Proof. solve_decision. Defined.
#[global] Instance target_eq_dec : EqDecision target.
Proof. solve_decision. Defined.
#[global] Instance listener_eq_dec : EqDecision listener.
Proof. solve_decision. Defined.
#[global] Instance task_eq_dec : EqDecision task.
Proof. solve_decision. Defined.

Record t := mk {
  config_latitude : float;
  config_longitude : float;
  next_handle : handle;
  time_interval : list (handle * (action * Z));
  dispatcher : list (handle * (string * target));
  bus_once : list (string * listener);
  tasks : list task;
}.

(** Modelled from the spec: the host's recurring timer
    ([async_track_time_interval]).  Registers [a] to run every [interval]
    seconds and returns the function that cancels the registration. *)
Definition async_track_time_interval (a : action) (interval : Z) (h : t)
  : handle * t :=
  (next_handle h,
   mk (config_latitude h) (config_longitude h) (S (next_handle h))
      (time_interval h ++ [(next_handle h, (a, interval))])
      (dispatcher h) (bus_once h) (tasks h)).

(** Modelled from the spec: subscription to a named signal
    ([async_dispatcher_connect]); returns the function that unsubscribes. *)
Definition async_dispatcher_connect (signal : string) (tg : target) (h : t)
  : handle * t :=
  (next_handle h,
   mk (config_latitude h) (config_longitude h) (S (next_handle h))
      (time_interval h)
      (dispatcher h ++ [(next_handle h, (signal, tg))])
      (bus_once h) (tasks h)).

(** Modelled from the spec: calling a function returned by one of the two
    registrations above drops that registration. *)
Definition call_remove (k : handle) (h : t) : t :=
  mk (config_latitude h) (config_longitude h) (next_handle h)
     (filter (λ r, r.1 ≠ k) (time_interval h))
     (filter (λ r, r.1 ≠ k) (dispatcher h))
     (bus_once h) (tasks h).

(** Modelled from the spec: [hass.async_create_task]. *)
Definition async_create_task (k : task) (h : t) : t :=
  mk (config_latitude h) (config_longitude h) (next_handle h)
     (time_interval h) (dispatcher h) (bus_once h) (tasks h ++ [k]).

(** Modelled from the spec: [hass.bus.async_listen_once]. *)
Definition async_listen_once (event_type : string) (l : listener) (h : t) : t :=
  mk (config_latitude h) (config_longitude h) (next_handle h)
     (time_interval h) (dispatcher h) (bus_once h ++ [(event_type, l)])
     (tasks h).

(** The targets connected to [signal], in order of subscription. *)
Definition connected (signal : string) (h : t) : list target :=
  (λ r, r.2.2) <$> filter (λ r, r.2.1 = signal) (dispatcher h).

(** The registered timers that run the manager's update. *)
Definition update_timers (h : t) : list (handle * (action * Z)) :=
  filter (λ r, r.2.1 = FeedManagerUpdate) (time_interval h).

(** Handles in use are older than the next one to be issued. *)
Definition fresh (h : t) : Prop :=
  Forall (λ r, r.1 < next_handle h)%nat (time_interval h)
  ∧ Forall (λ r, r.1 < next_handle h)%nat (dispatcher h).

(** ** The order of effects

    A state of the host does not tell in which order it was reached.  For
    statements about order the host is paired with a log of what was done to
    it, and the operations of the host that the entity calls write to it. *)
Inductive effect :=
| Unsubscribed (k : handle)      (* the unsubscribe function [k] was called *)
| TaskCreated (k : task)         (* [hass.async_create_task] was called *)
| EntityGone (entity : nat).     (* the host let go of the entity *)

#[global] Instance effect_eq_dec : EqDecision effect.
Proof. solve_decision. Defined.

Definition logged : Type := t * list effect.

Definition call_remove_logged (k : handle) (hl : logged) : logged :=
  (call_remove k hl.1, (hl.2 ++ [Unsubscribed k])%list).

Definition async_create_task_logged (k : task) (hl : logged) : logged :=
  (async_create_task k hl.1, (hl.2 ++ [TaskCreated k])%list).

End Hass.

Definition EVENT_HOMEASSISTANT_START := "homeassistant_start".
Definition EVENT_HOMEASSISTANT_STOP := "homeassistant_stop".

(* ====================================================================== *)
(** * The feed entity manager ([NswTransportServiceFeedEntityManager]) *)
(* ====================================================================== *)

Module Manager.

(** [self._hass] and [self._async_add_entities] refer to the host, which
    the functions below take as an argument where they use it. *)
Record t := mk {
  _feed_manager : FeedManager.t;
  _scan_interval : Z;
  _track_time_remove_callback : option Hass.handle;
  _hazard : string;
}.

(** The adapter is constructed here and starts without entries. *)
Definition __init__ (scan_interval : Z)
    (coordinates : float * float) (radius_in_km : float)
    (categories : list string) (hazard : string) : t :=
  mk (FeedManager.mk coordinates radius_in_km categories hazard ∅ 0)
     scan_interval None hazard.

Definition async_init (m : t) (h : Hass.t) : t * Hass.t :=
  let '(remove, h') :=
    Hass.async_track_time_interval Hass.FeedManagerUpdate (_scan_interval m) h in
  (mk (_feed_manager m) (_scan_interval m) (Some remove) (_hazard m), h').

(** A function object is truthy, [None] is not. *)
Definition async_stop (m : t) (h : Hass.t) : Hass.t :=
  match _track_time_remove_callback m with
  | Some remove => Hass.call_remove remove h
  | None => h
  end.

Definition get_entry (m : t) (external_id : string) : option FeedEntry.t :=
  FeedManager.feed_entries (_feed_manager m) !! external_id.

End Manager.

(* ====================================================================== *)
(** * The location event entity ([NswTransportServiceLocationEvent]) *)
(* ====================================================================== *)

Module LocationEvent.

(** The instance attributes.  The last four are not set by [__init__]:
    they come into being at their first assignment. [self._feed_manager]
    is the manager that created the entity; the functions that use it take
    the manager's current state as an argument. *)
Record t := mk {
  _external_id : string;
  _name : value;
  _distance : value;
  _latitude : value;
  _longitude : value;
  _attribution : value;
  _title : value;
  _category : value;
  _publication_date : value;
  _description : value;
  _publicTransport : value;
  _adviceA : value;
  _adviceB : value;
  _adviceOther : value;
  _isMajor : value;
  _isEnded : value;
  _isNew : value;
  _isImpactNetwork : value;
  _diversions : value;
  _type : value;
  _subCategory : value;
  _duration : value;
  _road : value;
  _council_area : value;
  _hazard : string;
  _picture : value;
  _otherAdvice : option value;
  _feature_type : option value;
  _remove_signal_delete : option Hass.handle;
  _remove_signal_update : option Hass.handle;
}.

(** Attribute assignment, one function per assigned attribute. *)
Definition set_external_id (v : string) (e : t) : t :=
  mk v (_name e) (_distance e) (_latitude e) (_longitude e)
    (_attribution e) (_title e) (_category e) (_publication_date e)
    (_description e) (_publicTransport e) (_adviceA e) (_adviceB e)
    (_adviceOther e) (_isMajor e) (_isEnded e) (_isNew e)
    (_isImpactNetwork e) (_diversions e) (_type e) (_subCategory e)
    (_duration e) (_road e) (_council_area e) (_hazard e) (_picture e)
    (_otherAdvice e) (_feature_type e) (_remove_signal_delete e)
    (_remove_signal_update e).
Definition set_name (v : value) (e : t) : t :=
  mk (_external_id e) v (_distance e) (_latitude e) (_longitude e)
    (_attribution e) (_title e) (_category e) (_publication_date e)
    (_description e) (_publicTransport e) (_adviceA e) (_adviceB e)
    (_adviceOther e) (_isMajor e) (_isEnded e) (_isNew e)
    (_isImpactNetwork e) (_diversions e) (_type e) (_subCategory e)
    (_duration e) (_road e) (_council_area e) (_hazard e) (_picture e)
    (_otherAdvice e) (_feature_type e) (_remove_signal_delete e)
    (_remove_signal_update e).
Definition set_distance (v : value) (e : t) : t :=
  mk (_external_id e) (_name e) v (_latitude e) (_longitude e)
    (_attribution e) (_title e) (_category e) (_publication_date e)
    (_description e) (_publicTransport e) (_adviceA e) (_adviceB e)
    (_adviceOther e) (_isMajor e) (_isEnded e) (_isNew e)
    (_isImpactNetwork e) (_diversions e) (_type e) (_subCategory e)
    (_duration e) (_road e) (_council_area e) (_hazard e) (_picture e)
    (_otherAdvice e) (_feature_type e) (_remove_signal_delete e)
    (_remove_signal_update e).
Definition set_latitude (v : value) (e : t) : t :=
  mk (_external_id e) (_name e) (_distance e) v (_longitude e)
    (_attribution e) (_title e) (_category e) (_publication_date e)
    (_description e) (_publicTransport e) (_adviceA e) (_adviceB e)
    (_adviceOther e) (_isMajor e) (_isEnded e) (_isNew e)
    (_isImpactNetwork e) (_diversions e) (_type e) (_subCategory e)
    (_duration e) (_road e) (_council_area e) (_hazard e) (_picture e)
    (_otherAdvice e) (_feature_type e) (_remove_signal_delete e)
    (_remove_signal_update e).
Definition set_longitude (v : value) (e : t) : t :=
  mk (_external_id e) (_name e) (_distance e) (_latitude e) v
    (_attribution e) (_title e) (_category e) (_publication_date e)
    (_description e) (_publicTransport e) (_adviceA e) (_adviceB e)
    (_adviceOther e) (_isMajor e) (_isEnded e) (_isNew e)
    (_isImpactNetwork e) (_diversions e) (_type e) (_subCategory e)
    (_duration e) (_road e) (_council_area e) (_hazard e) (_picture e)
    (_otherAdvice e) (_feature_type e) (_remove_signal_delete e)
    (_remove_signal_update e).
Definition set_attribution (v : value) (e : t) : t :=
  mk (_external_id e) (_name e) (_distance e) (_latitude e) (_longitude e)
    v (_title e) (_category e) (_publication_date e) (_description e)
    (_publicTransport e) (_adviceA e) (_adviceB e) (_adviceOther e)
    (_isMajor e) (_isEnded e) (_isNew e) (_isImpactNetwork e)
    (_diversions e) (_type e) (_subCategory e) (_duration e) (_road e)
    (_council_area e) (_hazard e) (_picture e) (_otherAdvice e)
    (_feature_type e) (_remove_signal_delete e) (_remove_signal_update e).
Definition set_category (v : value) (e : t) : t :=
  mk (_external_id e) (_name e) (_distance e) (_latitude e) (_longitude e)
    (_attribution e) (_title e) v (_publication_date e) (_description e)
    (_publicTransport e) (_adviceA e) (_adviceB e) (_adviceOther e)
    (_isMajor e) (_isEnded e) (_isNew e) (_isImpactNetwork e)
    (_diversions e) (_type e) (_subCategory e) (_duration e) (_road e)
    (_council_area e) (_hazard e) (_picture e) (_otherAdvice e)
    (_feature_type e) (_remove_signal_delete e) (_remove_signal_update e).
Definition set_publication_date (v : value) (e : t) : t :=
  mk (_external_id e) (_name e) (_distance e) (_latitude e) (_longitude e)
    (_attribution e) (_title e) (_category e) v (_description e)
    (_publicTransport e) (_adviceA e) (_adviceB e) (_adviceOther e)
    (_isMajor e) (_isEnded e) (_isNew e) (_isImpactNetwork e)
    (_diversions e) (_type e) (_subCategory e) (_duration e) (_road e)
    (_council_area e) (_hazard e) (_picture e) (_otherAdvice e)
    (_feature_type e) (_remove_signal_delete e) (_remove_signal_update e).
Definition set_description (v : value) (e : t) : t :=
  mk (_external_id e) (_name e) (_distance e) (_latitude e) (_longitude e)
    (_attribution e) (_title e) (_category e) (_publication_date e) v
    (_publicTransport e) (_adviceA e) (_adviceB e) (_adviceOther e)
    (_isMajor e) (_isEnded e) (_isNew e) (_isImpactNetwork e)
    (_diversions e) (_type e) (_subCategory e) (_duration e) (_road e)
    (_council_area e) (_hazard e) (_picture e) (_otherAdvice e)
    (_feature_type e) (_remove_signal_delete e) (_remove_signal_update e).
Definition set_publicTransport (v : value) (e : t) : t :=
  mk (_external_id e) (_name e) (_distance e) (_latitude e) (_longitude e)
    (_attribution e) (_title e) (_category e) (_publication_date e)
    (_description e) v (_adviceA e) (_adviceB e) (_adviceOther e)
    (_isMajor e) (_isEnded e) (_isNew e) (_isImpactNetwork e)
    (_diversions e) (_type e) (_subCategory e) (_duration e) (_road e)
    (_council_area e) (_hazard e) (_picture e) (_otherAdvice e)
    (_feature_type e) (_remove_signal_delete e) (_remove_signal_update e).
Definition set_adviceA (v : value) (e : t) : t :=
  mk (_external_id e) (_name e) (_distance e) (_latitude e) (_longitude e)
    (_attribution e) (_title e) (_category e) (_publication_date e)
    (_description e) (_publicTransport e) v (_adviceB e) (_adviceOther e)
    (_isMajor e) (_isEnded e) (_isNew e) (_isImpactNetwork e)
    (_diversions e) (_type e) (_subCategory e) (_duration e) (_road e)
    (_council_area e) (_hazard e) (_picture e) (_otherAdvice e)
    (_feature_type e) (_remove_signal_delete e) (_remove_signal_update e).
Definition set_adviceB (v : value) (e : t) : t :=
  mk (_external_id e) (_name e) (_distance e) (_latitude e) (_longitude e)
    (_attribution e) (_title e) (_category e) (_publication_date e)
    (_description e) (_publicTransport e) (_adviceA e) v (_adviceOther e)
    (_isMajor e) (_isEnded e) (_isNew e) (_isImpactNetwork e)
    (_diversions e) (_type e) (_subCategory e) (_duration e) (_road e)
    (_council_area e) (_hazard e) (_picture e) (_otherAdvice e)
    (_feature_type e) (_remove_signal_delete e) (_remove_signal_update e).
Definition set_adviceOther (v : value) (e : t) : t :=
  mk (_external_id e) (_name e) (_distance e) (_latitude e) (_longitude e)
    (_attribution e) (_title e) (_category e) (_publication_date e)
    (_description e) (_publicTransport e) (_adviceA e) (_adviceB e) v
    (_isMajor e) (_isEnded e) (_isNew e) (_isImpactNetwork e)
    (_diversions e) (_type e) (_subCategory e) (_duration e) (_road e)
    (_council_area e) (_hazard e) (_picture e) (_otherAdvice e)
    (_feature_type e) (_remove_signal_delete e) (_remove_signal_update e).
Definition set_isMajor (v : value) (e : t) : t :=
  mk (_external_id e) (_name e) (_distance e) (_latitude e) (_longitude e)
    (_attribution e) (_title e) (_category e) (_publication_date e)
    (_description e) (_publicTransport e) (_adviceA e) (_adviceB e)
    (_adviceOther e) v (_isEnded e) (_isNew e) (_isImpactNetwork e)
    (_diversions e) (_type e) (_subCategory e) (_duration e) (_road e)
    (_council_area e) (_hazard e) (_picture e) (_otherAdvice e)
    (_feature_type e) (_remove_signal_delete e) (_remove_signal_update e).
Definition set_isEnded (v : value) (e : t) : t :=
  mk (_external_id e) (_name e) (_distance e) (_latitude e) (_longitude e)
    (_attribution e) (_title e) (_category e) (_publication_date e)
    (_description e) (_publicTransport e) (_adviceA e) (_adviceB e)
    (_adviceOther e) (_isMajor e) v (_isNew e) (_isImpactNetwork e)
    (_diversions e) (_type e) (_subCategory e) (_duration e) (_road e)
    (_council_area e) (_hazard e) (_picture e) (_otherAdvice e)
    (_feature_type e) (_remove_signal_delete e) (_remove_signal_update e).
Definition set_isNew (v : value) (e : t) : t :=
  mk (_external_id e) (_name e) (_distance e) (_latitude e) (_longitude e)
    (_attribution e) (_title e) (_category e) (_publication_date e)
    (_description e) (_publicTransport e) (_adviceA e) (_adviceB e)
    (_adviceOther e) (_isMajor e) (_isEnded e) v (_isImpactNetwork e)
    (_diversions e) (_type e) (_subCategory e) (_duration e) (_road e)
    (_council_area e) (_hazard e) (_picture e) (_otherAdvice e)
    (_feature_type e) (_remove_signal_delete e) (_remove_signal_update e).
Definition set_isImpactNetwork (v : value) (e : t) : t :=
  mk (_external_id e) (_name e) (_distance e) (_latitude e) (_longitude e)
    (_attribution e) (_title e) (_category e) (_publication_date e)
    (_description e) (_publicTransport e) (_adviceA e) (_adviceB e)
    (_adviceOther e) (_isMajor e) (_isEnded e) (_isNew e) v (_diversions e)
    (_type e) (_subCategory e) (_duration e) (_road e) (_council_area e)
    (_hazard e) (_picture e) (_otherAdvice e) (_feature_type e)
    (_remove_signal_delete e) (_remove_signal_update e).
Definition set_diversions (v : value) (e : t) : t :=
  mk (_external_id e) (_name e) (_distance e) (_latitude e) (_longitude e)
    (_attribution e) (_title e) (_category e) (_publication_date e)
    (_description e) (_publicTransport e) (_adviceA e) (_adviceB e)
    (_adviceOther e) (_isMajor e) (_isEnded e) (_isNew e)
    (_isImpactNetwork e) v (_type e) (_subCategory e) (_duration e)
    (_road e) (_council_area e) (_hazard e) (_picture e) (_otherAdvice e)
    (_feature_type e) (_remove_signal_delete e) (_remove_signal_update e).
Definition set_type (v : value) (e : t) : t :=
  mk (_external_id e) (_name e) (_distance e) (_latitude e) (_longitude e)
    (_attribution e) (_title e) (_category e) (_publication_date e)
    (_description e) (_publicTransport e) (_adviceA e) (_adviceB e)
    (_adviceOther e) (_isMajor e) (_isEnded e) (_isNew e)
    (_isImpactNetwork e) (_diversions e) v (_subCategory e) (_duration e)
    (_road e) (_council_area e) (_hazard e) (_picture e) (_otherAdvice e)
    (_feature_type e) (_remove_signal_delete e) (_remove_signal_update e).
Definition set_subCategory (v : value) (e : t) : t :=
  mk (_external_id e) (_name e) (_distance e) (_latitude e) (_longitude e)
    (_attribution e) (_title e) (_category e) (_publication_date e)
    (_description e) (_publicTransport e) (_adviceA e) (_adviceB e)
    (_adviceOther e) (_isMajor e) (_isEnded e) (_isNew e)
    (_isImpactNetwork e) (_diversions e) (_type e) v (_duration e)
    (_road e) (_council_area e) (_hazard e) (_picture e) (_otherAdvice e)
    (_feature_type e) (_remove_signal_delete e) (_remove_signal_update e).
Definition set_duration (v : value) (e : t) : t :=
  mk (_external_id e) (_name e) (_distance e) (_latitude e) (_longitude e)
    (_attribution e) (_title e) (_category e) (_publication_date e)
    (_description e) (_publicTransport e) (_adviceA e) (_adviceB e)
    (_adviceOther e) (_isMajor e) (_isEnded e) (_isNew e)
    (_isImpactNetwork e) (_diversions e) (_type e) (_subCategory e) v
    (_road e) (_council_area e) (_hazard e) (_picture e) (_otherAdvice e)
    (_feature_type e) (_remove_signal_delete e) (_remove_signal_update e).
Definition set_road (v : value) (e : t) : t :=
  mk (_external_id e) (_name e) (_distance e) (_latitude e) (_longitude e)
    (_attribution e) (_title e) (_category e) (_publication_date e)
    (_description e) (_publicTransport e) (_adviceA e) (_adviceB e)
    (_adviceOther e) (_isMajor e) (_isEnded e) (_isNew e)
    (_isImpactNetwork e) (_diversions e) (_type e) (_subCategory e)
    (_duration e) v (_council_area e) (_hazard e) (_picture e)
    (_otherAdvice e) (_feature_type e) (_remove_signal_delete e)
    (_remove_signal_update e).
Definition set_council_area (v : value) (e : t) : t :=
  mk (_external_id e) (_name e) (_distance e) (_latitude e) (_longitude e)
    (_attribution e) (_title e) (_category e) (_publication_date e)
    (_description e) (_publicTransport e) (_adviceA e) (_adviceB e)
    (_adviceOther e) (_isMajor e) (_isEnded e) (_isNew e)
    (_isImpactNetwork e) (_diversions e) (_type e) (_subCategory e)
    (_duration e) (_road e) v (_hazard e) (_picture e) (_otherAdvice e)
    (_feature_type e) (_remove_signal_delete e) (_remove_signal_update e).
Definition set_picture (v : value) (e : t) : t :=
  mk (_external_id e) (_name e) (_distance e) (_latitude e) (_longitude e)
    (_attribution e) (_title e) (_category e) (_publication_date e)
    (_description e) (_publicTransport e) (_adviceA e) (_adviceB e)
    (_adviceOther e) (_isMajor e) (_isEnded e) (_isNew e)
    (_isImpactNetwork e) (_diversions e) (_type e) (_subCategory e)
    (_duration e) (_road e) (_council_area e) (_hazard e) v
    (_otherAdvice e) (_feature_type e) (_remove_signal_delete e)
    (_remove_signal_update e).
Definition set_otherAdvice (v : option value) (e : t) : t :=
  mk (_external_id e) (_name e) (_distance e) (_latitude e) (_longitude e)
    (_attribution e) (_title e) (_category e) (_publication_date e)
    (_description e) (_publicTransport e) (_adviceA e) (_adviceB e)
    (_adviceOther e) (_isMajor e) (_isEnded e) (_isNew e)
    (_isImpactNetwork e) (_diversions e) (_type e) (_subCategory e)
    (_duration e) (_road e) (_council_area e) (_hazard e) (_picture e) v
    (_feature_type e) (_remove_signal_delete e) (_remove_signal_update e).
Definition set_feature_type (v : option value) (e : t) : t :=
  mk (_external_id e) (_name e) (_distance e) (_latitude e) (_longitude e)
    (_attribution e) (_title e) (_category e) (_publication_date e)
    (_description e) (_publicTransport e) (_adviceA e) (_adviceB e)
    (_adviceOther e) (_isMajor e) (_isEnded e) (_isNew e)
    (_isImpactNetwork e) (_diversions e) (_type e) (_subCategory e)
    (_duration e) (_road e) (_council_area e) (_hazard e) (_picture e)
    (_otherAdvice e) v (_remove_signal_delete e) (_remove_signal_update e).
Definition set_remove_signal_delete (v : option Hass.handle) (e : t) : t :=
  mk (_external_id e) (_name e) (_distance e) (_latitude e) (_longitude e)
    (_attribution e) (_title e) (_category e) (_publication_date e)
    (_description e) (_publicTransport e) (_adviceA e) (_adviceB e)
    (_adviceOther e) (_isMajor e) (_isEnded e) (_isNew e)
    (_isImpactNetwork e) (_diversions e) (_type e) (_subCategory e)
    (_duration e) (_road e) (_council_area e) (_hazard e) (_picture e)
    (_otherAdvice e) (_feature_type e) v (_remove_signal_update e).
Definition set_remove_signal_update (v : option Hass.handle) (e : t) : t :=
  mk (_external_id e) (_name e) (_distance e) (_latitude e) (_longitude e)
    (_attribution e) (_title e) (_category e) (_publication_date e)
    (_description e) (_publicTransport e) (_adviceA e) (_adviceB e)
    (_adviceOther e) (_isMajor e) (_isEnded e) (_isNew e)
    (_isImpactNetwork e) (_diversions e) (_type e) (_subCategory e)
    (_duration e) (_road e) (_council_area e) (_hazard e) (_picture e)
    (_otherAdvice e) (_feature_type e) (_remove_signal_delete e) v.
Definition __init__ (feed_manager : Manager.t) (external_id : string) : t :=
  {| _external_id := external_id;
     _name := VNone;
     _distance := VNone;
     _latitude := VNone;
     _longitude := VNone;
     _attribution := VNone;
     _title := VNone;
     _category := VNone;
     _publication_date := VNone;
     _description := VNone;
     _publicTransport := VNone;
     _adviceA := VNone;
     _adviceB := VNone;
     _adviceOther := VNone;
     _isMajor := VNone;
     _isEnded := VNone;
     _isNew := VNone;
     _isImpactNetwork := VNone;
     _diversions := VNone;
     _type := VNone;
     _subCategory := VNone;
     _duration := VNone;
     _road := VNone;
     _council_area := VNone;
     _hazard := Manager._hazard feed_manager;
     _picture := VNone;
     _otherAdvice := None;
     _feature_type := None;
     _remove_signal_delete := None;
     _remove_signal_update := None |}.

(** ** Derived properties *)

Definition icon (e : t) : string :=
  if startswith (lower (_hazard e)) "incident" then "mdi:alert"
  else if startswith (lower (_hazard e)) "fire" then "mdi:fire"
  else if startswith (lower (_hazard e)) "flood" then "mdi:home-flood"
  else if startswith (lower (_hazard e)) "alpine" then "mdi:snowflake-alert"
  else if startswith (lower (_hazard e)) "major" then "mdi:party-popper"
  else if startswith (lower (_hazard e)) "roadwork" then "mdi:road-variant"
  else "mdi:alarm-light".

Definition picture (e : t) : value :=
  if startswith (lower (_hazard e)) "incident" then
    VStr "https://www.livetraffic.com/images/icons/hazard/traffic-incident.gif"
  else if startswith (lower (_hazard e)) "fire" then
    VStr "https://www.livetraffic.com/images/icons/hazard/weather-bush-fire.gif"
  else if startswith (lower (_hazard e)) "flood" then
    VStr "https://www.livetraffic.com/images/icons/hazard/weather-flood.gif"
  else if startswith (lower (_hazard e)) "alpine" then
    VStr "https://www.livetraffic.com/images/icons/hazard/weather-snow-ice.gif"
  else if startswith (lower (_hazard e)) "major" then
    VStr "https://www.livetraffic.com/images/icons/hazard/major-event.gif"
  else if startswith (lower (_hazard e)) "roadwork" then
    VStr "https://www.livetraffic.com/images/icons/hazard/road-work-3.png"
  else VNone.

Definition source (e : t) : string := SOURCE.
Definition name (e : t) : value := _name e.
Definition distance (e : t) : value := _distance e.
Definition latitude (e : t) : value := _latitude e.
Definition longitude (e : t) : value := _longitude e.
Definition unit_of_measurement (e : t) : string := DEFAULT_UNIT_OF_MEASUREMENT.
Definition should_poll (e : t) : bool := false.

(** The pairs the loop of [device_state_attributes] runs over. *)
Definition attribute_pairs (e : t) : list (string * value) :=
  [ (ATTR_TITLE, _title e);
    (ATTR_FEATURE_TYPE, VStr (_hazard e));
    (ATTR_TYPE, _type e);
    (ATTR_SUBCATEGORY, _subCategory e);
    (ATTR_ROAD, _road e);
    (ATTR_COUNCIL, _council_area e);
    (ATTR_CATEGORY, _category e);
    (ATTR_DESCRIPTION, _description e);
    (ATTR_PUBLICATION_DATE, _publication_date e);
    (ATTR_ADVICEA, _adviceA e);
    (ATTR_ADVICEB, _adviceB e);
    (ATTR_DIVERSIONS, _diversions e);
    (ATTR_PUBLICTRANSPORT, _publicTransport e);
    (ATTR_ADVICEOTHER, _adviceOther e);
    (ATTR_ISMAJOR, _isMajor e);
    (ATTR_ISENDED, _isEnded e);
    (ATTR_ISNEW, _isNew e);
    (ATTR_ISIMPACTNETWORK, _isImpactNetwork e);
    (ATTR_DURATION, _duration e);
    (ATTR_EXTERNAL_ID, VStr (_external_id e));
    (ATTR_ATTRIBUTION, _attribution e);
    (ATTR_PICTURE, _picture e) ].

(** One turn of the loop: [if value or isinstance(value, bool)]. *)
Definition put_attribute (attributes : gmap string value)
    (kv : string * value) : gmap string value :=
  if truthy kv.2 || isinstance_bool kv.2 then <[kv.1 := kv.2]> attributes
  else attributes.

Definition device_state_attributes (e : t) : gmap string value :=
  foldl put_attribute ∅ (attribute_pairs e).

Definition cleanuphtml (prop : value) : outcome string := re_sub prop.

(** ** Methods that assign attributes and may raise

    A computation takes the entity and returns it as the assignments made
    so far have left it, with a result or the exception raised. *)

Definition M (A : Type) : Type := t → t * outcome A.

#[global] Instance M_ret : MRet M := λ A a e, (e, Ok a).
#[global] Instance M_bind : MBind M := λ A B k c e,
  match c e with
  | (e', Ok a) => k a e'
  | (e', Raise x) => (e', Raise x)
  end.

Definition assign (set : t → t) : M unit := λ e, (set e, Ok tt).
Definition read {A} (get : t → A) : M A := λ e, (e, Ok (get e)).
Definition lift {A} (o : outcome A) : M A := λ e, (e, o).

(** On an entry of [FeedEntry.t] the subscripts of the last two assignments
    select from a pair and cannot fail; the three substitutions can. *)
Definition _update_from_feed (feed_entry : FeedEntry.t) : M unit :=
  assign (set_attribution (FeedEntry.attribution feed_entry)) ;;
  assign (set_name (FeedEntry.title feed_entry)) ;;
  assign (set_category (FeedEntry.category feed_entry)) ;;
  assign (set_external_id (FeedEntry.external_id feed_entry)) ;;
  assign (set_publication_date (FeedEntry.publication_date feed_entry)) ;;
  assign (set_description (FeedEntry.description feed_entry)) ;;
  s ← lift (re_sub (FeedEntry.otherAdvice feed_entry));
  assign (set_otherAdvice (Some (VStr s))) ;;
  assign (set_publicTransport (FeedEntry.publicTransport feed_entry)) ;;
  assign (set_adviceA (FeedEntry.adviceA feed_entry)) ;;
  assign (set_adviceB (FeedEntry.adviceB feed_entry)) ;;
  s ← lift (re_sub (FeedEntry.adviceOther feed_entry));
  assign (set_adviceOther (VStr s)) ;;
  assign (set_isMajor (FeedEntry.isMajor feed_entry)) ;;
  assign (set_isEnded (FeedEntry.isEnded feed_entry)) ;;
  assign (set_isNew (FeedEntry.isNew feed_entry)) ;;
  assign (set_isImpactNetwork (FeedEntry.isImpactNetwork feed_entry)) ;;
  s ← lift (re_sub (FeedEntry.diversions feed_entry));
  assign (set_diversions (VStr s)) ;;
  assign (set_type (FeedEntry.type feed_entry)) ;;
  assign (set_subCategory (FeedEntry.subCategory feed_entry)) ;;
  assign (set_duration (FeedEntry.duration feed_entry)) ;;
  assign (set_feature_type (Some (FeedEntry.feature_type feed_entry))) ;;
  assign (set_road (FeedEntry.road feed_entry)) ;;
  assign (set_council_area (FeedEntry.council_area feed_entry)) ;;
  p ← read picture;
  assign (set_picture p) ;;
  assign (set_distance (FeedEntry.distance_to_home feed_entry)) ;;
  assign (set_latitude (FeedEntry.coordinates feed_entry).1) ;;
  assign (set_longitude (FeedEntry.coordinates feed_entry).2).

(** The same method on an entry object whose [coordinates] attribute holds
    [coordinates], a tuple of any length or [None], in place of the pair of
    [feed_entry]: the subscripts of the last two assignments can raise. *)
Definition _update_from_feed_with (coordinates : tuple_or_none)
    (feed_entry : FeedEntry.t) : M unit :=
  assign (set_attribution (FeedEntry.attribution feed_entry)) ;;
  assign (set_name (FeedEntry.title feed_entry)) ;;
  assign (set_category (FeedEntry.category feed_entry)) ;;
  assign (set_external_id (FeedEntry.external_id feed_entry)) ;;
  assign (set_publication_date (FeedEntry.publication_date feed_entry)) ;;
  assign (set_description (FeedEntry.description feed_entry)) ;;
  s ← lift (re_sub (FeedEntry.otherAdvice feed_entry));
  assign (set_otherAdvice (Some (VStr s))) ;;
  assign (set_publicTransport (FeedEntry.publicTransport feed_entry)) ;;
  assign (set_adviceA (FeedEntry.adviceA feed_entry)) ;;
  assign (set_adviceB (FeedEntry.adviceB feed_entry)) ;;
  s ← lift (re_sub (FeedEntry.adviceOther feed_entry));
  assign (set_adviceOther (VStr s)) ;;
  assign (set_isMajor (FeedEntry.isMajor feed_entry)) ;;
  assign (set_isEnded (FeedEntry.isEnded feed_entry)) ;;
  assign (set_isNew (FeedEntry.isNew feed_entry)) ;;
  assign (set_isImpactNetwork (FeedEntry.isImpactNetwork feed_entry)) ;;
  s ← lift (re_sub (FeedEntry.diversions feed_entry));
  assign (set_diversions (VStr s)) ;;
  assign (set_type (FeedEntry.type feed_entry)) ;;
  assign (set_subCategory (FeedEntry.subCategory feed_entry)) ;;
  assign (set_duration (FeedEntry.duration feed_entry)) ;;
  assign (set_feature_type (Some (FeedEntry.feature_type feed_entry))) ;;
  assign (set_road (FeedEntry.road feed_entry)) ;;
  assign (set_council_area (FeedEntry.council_area feed_entry)) ;;
  p ← read picture;
  assign (set_picture p) ;;
  assign (set_distance (FeedEntry.distance_to_home feed_entry)) ;;
  latitude ← lift (getitem coordinates 0);
  assign (set_latitude latitude) ;;
  longitude ← lift (getitem coordinates 1);
  assign (set_longitude longitude).

(** A feed entry object is truthy; [dict.get] gives [None] for a missing
    key. *)
Definition async_update (feed_manager : Manager.t) : M unit := λ e,
  match Manager.get_entry feed_manager (_external_id e) with
  | Some feed_entry => _update_from_feed feed_entry e
  | None => (e, Ok tt)
  end.

(** ** Methods that act on the host; [self] is the entity's identity *)

Definition async_added_to_hass (self : nat) (e : t) (h : Hass.t) : t * Hass.t :=
  let '(remove_delete, h1) :=
    Hass.async_dispatcher_connect (SIGNAL_DELETE_ENTITY (_external_id e))
      (Hass.DeleteCallback self) h in
  let e1 := set_remove_signal_delete (Some remove_delete) e in
  let '(remove_update, h2) :=
    Hass.async_dispatcher_connect (SIGNAL_UPDATE_ENTITY (_external_id e1))
      (Hass.UpdateCallback self) h1 in
  (set_remove_signal_update (Some remove_update) e1, h2).

(** Reading an attribute that was never assigned raises. *)
Definition async_will_remove_from_hass (e : t) (h : Hass.t)
  : Hass.t * outcome unit :=
  match _remove_signal_delete e with
  | None => (h, Raise AttributeError)
  | Some remove_delete =>
      let h1 := Hass.call_remove remove_delete h in
      match _remove_signal_update e with
      | None => (h1, Raise AttributeError)
      | Some remove_update => (Hass.call_remove remove_update h1, Ok tt)
      end
  end.

Definition _delete_callback (self : nat) (h : Hass.t) : Hass.t :=
  Hass.async_create_task (Hass.EntityAsyncRemove self) h.

(** [async_schedule_update_ha_state(True)] asks the host for a state update
    preceded by a refresh. *)
Definition _update_callback (self : nat) (h : Hass.t) : Hass.t :=
  Hass.async_create_task (Hass.EntityUpdateState self) h.

(** ** The detach hook and the delete callback on a logged host

    The two methods again, statement by statement, with the logging
    operations of the host in place of the plain ones. *)

Definition async_will_remove_from_hass_logged (e : t) (hl : Hass.logged)
  : Hass.logged * outcome unit :=
  match _remove_signal_delete e with
  | None => (hl, Raise AttributeError)
  | Some remove_delete =>
      let hl1 := Hass.call_remove_logged remove_delete hl in
      match _remove_signal_update e with
      | None => (hl1, Raise AttributeError)
      | Some remove_update => (Hass.call_remove_logged remove_update hl1, Ok tt)
      end
  end.

Definition _delete_callback_logged (self : nat) (hl : Hass.logged) : Hass.logged :=
  Hass.async_create_task_logged (Hass.EntityAsyncRemove self) hl.

End LocationEvent.

(* ====================================================================== *)
(** * The platform: bootstrap, manager callbacks, and the host's loop *)
(* ====================================================================== *)

Module Platform.

(** Everything the module's code can touch: the host, the one manager the
    bootstrap constructs, and the entity objects registered with the host,
    by identity. *)
Record World := mkWorld {
  hass : Hass.t;
  manager : Manager.t;
  entities : gmap nat LocationEvent.t;
  next_entity : nat;
}.

(** Modelled from the spec: the host's entity registration function
    ([async_add_entities]), applied to one new entity.  The host takes the
    entity in, attaches it (which runs the attach hook), and, when asked to
    update before adding, arranges for a first refresh.  The spec does not
    say when the host runs the attach hook; here it runs at registration.
    What a signal reaches is therefore stated for an entity whose attach
    hook has run, not for an entity that has only been handed over. *)
Definition async_add_entities (new_entity : LocationEvent.t)
    (update_before_add : bool) (w : World) : World :=
  let self := next_entity w in
  let '(e, h) := LocationEvent.async_added_to_hass self new_entity (hass w) in
  let h' := if update_before_add
            then Hass.async_create_task (Hass.EntityUpdateState self) h
            else h in
  mkWorld h' (manager w) (<[self := e]> (entities w)) (S self).

(** Modelled from the spec: [async_dispatcher_send] runs what is connected
    to the signal; targets of other components are no concern of this
    module. *)
Definition run_target (tg : Hass.target) (h : Hass.t) : Hass.t :=
  match tg with
  | Hass.DeleteCallback self => LocationEvent._delete_callback self h
  | Hass.UpdateCallback self => LocationEvent._update_callback self h
  | Hass.OtherTarget _ => h
  end.

Definition async_dispatcher_send (signal : string) (h : Hass.t) : Hass.t :=
  foldl (λ h tg, run_target tg h) h (Hass.connected signal h).

(** ** The manager's three callbacks and its refresh *)

Definition _generate_entity (external_id : string) (w : World) : World :=
  let new_entity := LocationEvent.__init__ (manager w) external_id in
  async_add_entities new_entity true w.

Definition _update_entity (external_id : string) (w : World) : World :=
  mkWorld (async_dispatcher_send (SIGNAL_UPDATE_ENTITY external_id) (hass w))
          (manager w) (entities w) (next_entity w).

Definition _remove_entity (external_id : string) (w : World) : World :=
  mkWorld (async_dispatcher_send (SIGNAL_DELETE_ENTITY external_id) (hass w))
          (manager w) (entities w) (next_entity w).

Definition run_callback (cb : FeedManager.callback) (w : World) : World :=
  match cb with
  | FeedManager.generate i => _generate_entity i w
  | FeedManager.update_ i => _update_entity i w
  | FeedManager.remove i => _remove_entity i w
  end.

(** [await self._feed_manager.update()], on the feed the adapter
    retrieves this time. *)
Definition async_update (feed : gmap string FeedEntry.t) (w : World) : World :=
  let m := manager w in
  let '(fm, cbs) := FeedManager.update feed (Manager._feed_manager m) in
  let m' := Manager.mk fm (Manager._scan_interval m)
              (Manager._track_time_remove_callback m) (Manager._hazard m) in
  foldl (λ w cb, run_callback cb w)
    (mkWorld (hass w) m' (entities w) (next_entity w)) cbs.

Definition async_init (w : World) : World :=
  let '(m, h) := Manager.async_init (manager w) (hass w) in
  mkWorld h m (entities w) (next_entity w).

Definition async_stop (w : World) : World :=
  mkWorld (Manager.async_stop (manager w) (hass w)) (manager w) (entities w)
          (next_entity w).

(** ** Bootstrap *)

Definition async_setup_platform (h : Hass.t) (config : ConfigType) : World :=
  let scan_interval := default SCAN_INTERVAL (CONF_SCAN_INTERVAL config) in
  let coordinates :=
    (default (Hass.config_latitude h) (CONF_LATITUDE config),
     default (Hass.config_longitude h) (CONF_LONGITUDE config)) in
  let radius_in_km := CONF_RADIUS config in
  let categories := CONF_CATEGORIES config in
  let hazard :=
    if String.eqb (lower (CONF_HAZARDS_STATE config)) "none"
    then lower (CONF_HAZARDS config)
    else lower (CONF_HAZARDS config) +:+ "-" +:+ lower (CONF_HAZARDS_STATE config) in
  let manager :=
    Manager.__init__ scan_interval coordinates radius_in_km categories hazard in
  let h1 := Hass.async_listen_once EVENT_HOMEASSISTANT_START Hass.start_feed_manager h in
  let h2 := Hass.async_listen_once EVENT_HOMEASSISTANT_STOP Hass.stop_feed_manager h1 in
  let h3 := Hass.async_create_task Hass.ManagerAsyncUpdate h2 in
  mkWorld h3 manager ∅ 0.

(** ** The host's loop *)

(** Modelled from the spec: removal of an entity by the host
    ([Entity.async_remove]).  Detaching runs the entity's detach hook, then
    the host lets go of the entity.  An entity the host no longer has, or
    whose hook raises, ends the task with an error. *)
Definition async_remove (self : nat) (w : World) : World * outcome unit :=
  match entities w !! self with
  | None => (w, Raise AttributeError)
  | Some e =>
      match LocationEvent.async_will_remove_from_hass e (hass w) with
      | (h, Ok _) =>
          (mkWorld h (manager w) (delete self (entities w)) (next_entity w), Ok tt)
      | (h, Raise x) =>
          (mkWorld h (manager w) (entities w) (next_entity w), Raise x)
      end
  end.

(** Modelled from the spec: the same removal on a logged host.  The hook
    writes its effects to the log, then the host lets go of the entity. *)
Definition async_remove_logged (self : nat) (w : World) (log : list Hass.effect)
  : (World * list Hass.effect) * outcome unit :=
  match entities w !! self with
  | None => ((w, log), Raise AttributeError)
  | Some e =>
      match LocationEvent.async_will_remove_from_hass_logged e (hass w, log) with
      | ((h, log'), Ok _) =>
          ((mkWorld h (manager w) (delete self (entities w)) (next_entity w),
            (log' ++ [Hass.EntityGone self])%list), Ok tt)
      | ((h, log'), Raise x) =>
          ((mkWorld h (manager w) (entities w) (next_entity w), log'), Raise x)
      end
  end.

(** Modelled from the spec: a state update with refresh calls the entity's
    refresh operation. *)
Definition async_update_ha_state (self : nat) (w : World) : World * outcome unit :=
  match entities w !! self with
  | None => (w, Raise AttributeError)
  | Some e =>
      let '(e', r) := LocationEvent.async_update (manager w) e in
      (mkWorld (hass w) (manager w) (<[self := e']> (entities w)) (next_entity w), r)
  end.

Definition run_task (k : Hass.task) (feed : gmap string FeedEntry.t) (w : World)
  : World * outcome unit :=
  match k with
  | Hass.ManagerAsyncUpdate => (async_update feed w, Ok tt)
  | Hass.EntityAsyncRemove self => async_remove self w
  | Hass.EntityUpdateState self => async_update_ha_state self w
  | Hass.OtherTask _ => (w, Ok tt)
  end.

Definition run_listener (l : Hass.listener) (w : World) : World :=
  match l with
  | Hass.start_feed_manager => async_init w
  | Hass.stop_feed_manager => async_stop w
  | Hass.OtherListener _ => w
  end.

Definition run_action (a : Hass.action) (feed : gmap string FeedEntry.t) (w : World) : World :=
  match a with
  | Hass.FeedManagerUpdate => async_update feed w
  | Hass.OtherAction _ => w
  end.

Definition set_hass (h : Hass.t) (w : World) : World :=
  mkWorld h (manager w) (entities w) (next_entity w).

(** What the host can do next.  The feed is what the adapter would retrieve
    if the step makes it refresh. *)
Inductive step :=
| Task (i : nat) (feed : gmap string FeedEntry.t)  (* run the i-th pending task *)
| Tick (feed : gmap string FeedEntry.t)            (* every registered timer fires once *)
| Event (event_type : string).                     (* an event on the bus *)

Definition do_step (s : step) (w : World) : World * outcome unit :=
  match s with
  | Task i feed =>
      match Hass.tasks (hass w) !! i with
      | None => (w, Ok tt)
      | Some k =>
          let h := hass w in
          let h' := Hass.mk (Hass.config_latitude h) (Hass.config_longitude h)
                      (Hass.next_handle h) (Hass.time_interval h)
                      (Hass.dispatcher h) (Hass.bus_once h)
                      (delete i (Hass.tasks h)) in
          run_task k feed (set_hass h' w)
      end
  | Tick feed =>
      (foldl (λ w r, run_action r.2.1 feed w) w (Hass.time_interval (hass w)), Ok tt)
  | Event event_type =>
      let h := hass w in
      let due := filter (λ r, r.1 = event_type) (Hass.bus_once h) in
      let h' := Hass.mk (Hass.config_latitude h) (Hass.config_longitude h)
                      (Hass.next_handle h) (Hass.time_interval h)
                      (Hass.dispatcher h)
                      (filter (λ r, r.1 ≠ event_type) (Hass.bus_once h))
                      (Hass.tasks h) in
      (foldl (λ w r, run_listener r.2 w) (set_hass h' w) due, Ok tt)
  end.

Definition run (ss : list step) (w : World) : World :=
  foldl (λ w s, (do_step s w).1) w ss.

(** The number of refreshes the adapter has been asked for. *)
Definition update_calls (w : World) : nat :=
  FeedManager.update_calls (Manager._feed_manager (manager w)).

End Platform.

(* ====================================================================== *)
(** * Vocabulary of the properties *)
(* ====================================================================== *)

Import LocationEvent.

(** ** The hazard key *)

(** The key the bootstrap hands to the adapter it constructs. *)
Definition adapter_hazard (h : Hass.t) (config : ConfigType) : string :=
  FeedManager.hazard
    (Manager._feed_manager (Platform.manager (Platform.async_setup_platform h config))).

(** ** Markup *)

(** Some match of the pattern starts somewhere in the text. *)
Fixpoint has_tag (s : string) : bool :=
  match s with
  | EmptyString => false
  | String _ r => bool_decide (is_Some (tag_match s)) || has_tag r
  end.

(** The text holds the character. *)
Fixpoint has_char (a : ascii) (s : string) : bool :=
  match s with
  | EmptyString => false
  | String c r => Ascii.eqb c a || has_char a r
  end.

(** Every "<" of the text starts a match: it is followed, before the next
    "<", by some character and then a ">". *)
Fixpoint tags_closed (s : string) : bool :=
  match s with
  | EmptyString => true
  | String c r =>
      (negb (Ascii.eqb c "<") || bool_decide (is_Some (tag_match s)))
      && tags_closed r
  end.

(** The text of a field holds no match of the pattern. *)
Definition markup_free (v : value) : Prop := ∀ s, v = VStr s → has_tag s = false.

(** ** Attributes *)

(** The test of the loop. *)
Definition kept (v : value) : bool := truthy v || isinstance_bool v.

Definition attribute_keys : list string :=
  [ ATTR_TITLE; ATTR_FEATURE_TYPE; ATTR_TYPE; ATTR_SUBCATEGORY; ATTR_ROAD;
    ATTR_COUNCIL; ATTR_CATEGORY; ATTR_DESCRIPTION; ATTR_PUBLICATION_DATE;
    ATTR_ADVICEA; ATTR_ADVICEB; ATTR_DIVERSIONS; ATTR_PUBLICTRANSPORT;
    ATTR_ADVICEOTHER; ATTR_ISMAJOR; ATTR_ISENDED; ATTR_ISNEW;
    ATTR_ISIMPACTNETWORK; ATTR_DURATION; ATTR_EXTERNAL_ID; ATTR_ATTRIBUTION;
    ATTR_PICTURE ].

(** Membership in a concrete list, by evaluation. *)
Ltac in_pairs := apply (bool_decide_unpack _); vm_compute; exact I.

(** ** The table of prefixes *)

(** The six prefixes with what they stand for. *)
Inductive hazard_prefix := Incident | Fire | Flood | Alpine | Major | Roadwork.

#[global] Instance hazard_prefix_eq_dec : EqDecision hazard_prefix.
Proof. solve_decision. Defined.

Definition prefix_text (p : hazard_prefix) : string :=
  match p with
  | Incident => "incident" | Fire => "fire" | Flood => "flood"
  | Alpine => "alpine" | Major => "major" | Roadwork => "roadwork"
  end.

Definition icon_for (p : hazard_prefix) : string :=
  match p with
  | Incident => "mdi:alert" | Fire => "mdi:fire" | Flood => "mdi:home-flood"
  | Alpine => "mdi:snowflake-alert" | Major => "mdi:party-popper"
  | Roadwork => "mdi:road-variant"
  end.

Definition picture_for (p : hazard_prefix) : string :=
  "https://www.livetraffic.com/images/icons/hazard/" +:+
  match p with
  | Incident => "traffic-incident.gif" | Fire => "weather-bush-fire.gif"
  | Flood => "weather-flood.gif" | Alpine => "weather-snow-ice.gif"
  | Major => "major-event.gif" | Roadwork => "road-work-3.png"
  end.

(** ** Worlds *)

Section WorldPredicates.

Import Platform.

(** The part of the host that decides which timers run. *)
Definition schedule (h : Hass.t) := (Hass.time_interval h, Hass.bus_once h).

(** Every entity carries no title and the manager's classification. *)
Definition entities_ok (hz : string) (w : World) : Prop :=
  Manager._hazard (manager w) = hz
  ∧ ∀ self e, entities w !! self = Some e → _title e = VNone ∧ _hazard e = hz.

(** No registered timer runs the manager's update. *)
Definition no_update_timer (h : Hass.t) : Prop :=
  ∀ r, r ∈ Hass.time_interval h → r.2.1 ≠ Hass.FeedManagerUpdate.

(** Every timer that runs the manager's update is the one whose handle
    the manager holds. *)
Definition timers_known (w : World) : Prop :=
  ∀ r, r ∈ Hass.time_interval (hass w) → r.2.1 = Hass.FeedManagerUpdate →
       Manager._track_time_remove_callback (manager w) = Some r.1.

(** The number of listeners that would start the manager. *)
Definition starts (l : list (string * Hass.listener)) : nat :=
  length (filter (λ r, r.2 = Hass.start_feed_manager) l).

Definition timer_inv (w : World) : Prop :=
  timers_known w
  ∧ (starts (Hass.bus_once (hass w)) ≤ 1)%nat
  ∧ (starts (Hass.bus_once (hass w)) = 1%nat → no_update_timer (hass w)).

(** A step that registers no timer and no listener and leaves the manager's
    handle alone. *)
Definition quiet (w w' : World) : Prop :=
  Manager._track_time_remove_callback (manager w')
  = Manager._track_time_remove_callback (manager w)
  ∧ Hass.bus_once (hass w') = Hass.bus_once (hass w)
  ∧ ∀ r, r ∈ Hass.time_interval (hass w') → r ∈ Hass.time_interval (hass w).

(** Before the bootstrap the host knows nothing of the manager: no timer
    runs its update and no listener would start it. *)
Definition unaware (h : Hass.t) : Prop :=
  Hass.update_timers h = [] ∧ starts (Hass.bus_once h) = 0%nat.

(** The start listener has had its turn and no timer runs the update. *)
Definition settled (w : World) : Prop :=
  starts (Hass.bus_once (hass w)) = 0%nat ∧ no_update_timer (hass w).

End WorldPredicates.

(** ** Further vocabulary *)

(** [s] is [t] with some characters left out. *)
Inductive Subseq : string → string → Prop :=
| Subseq_nil : Subseq "" ""
| Subseq_take (c : ascii) (s t : string) : Subseq s t → Subseq (String c s) (String c t)
| Subseq_skip (c : ascii) (s t : string) : Subseq s t → Subseq s (String c t).

(** [isinstance(v, str)]. *)
Definition is_str (v : value) : bool :=
  match v with VStr _ => true | _ => false end.

(** What a connected target schedules when its signal is sent. *)
Definition scheduled (tg : Hass.target) : list Hass.task :=
  match tg with
  | Hass.DeleteCallback self => [Hass.EntityAsyncRemove self]
  | Hass.UpdateCallback self => [Hass.EntityUpdateState self]
  | Hass.OtherTarget _ => []
  end.

(** The listener belongs to another component. *)
Definition foreign (r : string * Hass.listener) : Prop :=
  ∃ tag, r.2 = Hass.OtherListener tag.

(* ====================================================================== *)
(** * Sample data *)
(* ====================================================================== *)

(** A host without registrations, at the origin. *)
Definition hass0 : Hass.t :=
  Hass.mk (S754_zero false) (S754_zero false) 0%nat [] [] [] [].

(** A configuration with the given hazard category and state. *)
Definition config_of (hz hs : string) : ConfigType :=
  {| CONF_SCAN_INTERVAL := None; CONF_LATITUDE := None; CONF_LONGITUDE := None;
     CONF_RADIUS := S754_finite false 20 0; CONF_CATEGORIES := [];
     CONF_HAZARDS := hz; CONF_HAZARDS_STATE := hs |}.

(** A feed entry with the given texts in [adviceA] and [adviceOther]. *)
Definition entry_with (id a other : string) : FeedEntry.t :=
  {| FeedEntry.attribution := VStr "State of New South Wales";
     FeedEntry.title := VStr "CRASH Car and truck";
     FeedEntry.category := VStr "CRASH";
     FeedEntry.external_id := id;
     FeedEntry.publication_date := VDatetime 1600000000;
     FeedEntry.description := VStr "";
     FeedEntry.otherAdvice := VStr "";
     FeedEntry.publicTransport := VStr "";
     FeedEntry.adviceA := VStr a;
     FeedEntry.adviceB := VNone;
     FeedEntry.adviceOther := VStr other;
     FeedEntry.isMajor := VBool false;
     FeedEntry.isEnded := VBool false;
     FeedEntry.isNew := VBool true;
     FeedEntry.isImpactNetwork := VBool true;
     FeedEntry.diversions := VStr "";
     FeedEntry.type := VStr "Incident";
     FeedEntry.subCategory := VStr "";
     FeedEntry.duration := VNone;
     FeedEntry.feature_type := VStr "Feature";
     FeedEntry.road := VStr "M1";
     FeedEntry.council_area := VStr "Sydney";
     FeedEntry.distance_to_home := VFloat (S754_finite false 5 0);
     FeedEntry.coordinates := (VFloat (S754_finite true 34 0),
                               VFloat (S754_finite false 151 0)) |}.

(** The manager of that bootstrap, and a new entity of it. *)
Definition manager0 : Manager.t :=
  Platform.manager (Platform.async_setup_platform hass0 (config_of "incident" "open")).

Definition event0 : LocationEvent.t := LocationEvent.__init__ manager0 "1234".

(** The entity [event0] after a refresh from a sample entry. *)
Definition event1 : LocationEvent.t :=
  (_update_from_feed (entry_with "1234" "Exercise caution" "") event0).1.

(** An entity of a manager whose hazard classification is [hazard]. *)
Definition event_of (hazard : string) : LocationEvent.t :=
  LocationEvent.__init__
    (Manager.__init__ SCAN_INTERVAL (S754_zero false, S754_zero false)
       (S754_finite false 20 0) [] hazard) "1234".

(** A feed of one entry. *)
Definition feed1 : gmap string FeedEntry.t :=
  {[ "1234" := entry_with "1234" "Exercise caution" "Allow <b>extra</b> time" ]}.

(** The world after the bootstrap on [hass0]. *)
Definition world0 : Platform.World :=
  Platform.async_setup_platform hass0 (config_of "incident" "open").

(** The bootstrap's update has run and retrieved [feed1]: one entity,
    attached, with its first refresh pending. *)
Definition world1 : Platform.World :=
  (Platform.do_step (Platform.Task 0 feed1) world0).1.

(** The adapter then retrieves an empty feed: the entry is gone while the
    entity's first refresh is still pending. *)
Definition world2 : Platform.World := Platform.async_update ∅ world1.

(** The entity of that identity in the world. *)
Definition entity_of (w : Platform.World) (self : nat) : LocationEvent.t :=
  default event0 (Platform.entities w !! self).

(** An entry whose [otherAdvice] is missing. *)
Definition entry_without_advice : FeedEntry.t :=
  {| FeedEntry.attribution := VStr "State of New South Wales";
     FeedEntry.title := VStr "HAZARD Flooding";
     FeedEntry.category := VStr "HAZARD";
     FeedEntry.external_id := "1234";
     FeedEntry.publication_date := VDatetime 1600000300;
     FeedEntry.description := VStr "";
     FeedEntry.otherAdvice := VNone;
     FeedEntry.publicTransport := VStr "";
     FeedEntry.adviceA := VStr "Avoid the area";
     FeedEntry.adviceB := VNone;
     FeedEntry.adviceOther := VStr "";
     FeedEntry.isMajor := VBool true;
     FeedEntry.isEnded := VBool false;
     FeedEntry.isNew := VBool false;
     FeedEntry.isImpactNetwork := VBool true;
     FeedEntry.diversions := VStr "";
     FeedEntry.type := VStr "Hazard";
     FeedEntry.subCategory := VStr "";
     FeedEntry.duration := VNone;
     FeedEntry.feature_type := VStr "Feature";
     FeedEntry.road := VStr "A1";
     FeedEntry.council_area := VStr "Newcastle";
     FeedEntry.distance_to_home := VFloat (S754_finite false 9 0);
     FeedEntry.coordinates := (VFloat (S754_finite true 33 0),
                               VFloat (S754_finite false 152 0)) |}.

(* ====================================================================== *)
(** * Properties *)
(* ====================================================================== *)

(** ** The configuration schema and the hazard key *)

Section Coercion.

(** A decimal numeral prints as the empty string or starts with a digit. *)
Lemma string_of_uint_head (d : Decimal.uint) :
  d = Decimal.Nil ∨
  ∃ c r, NilEmpty.string_of_uint d = String c r
         ∧ (48 <= nat_of_ascii c <= 57)%nat.
Proof.
  destruct d; [left; reflexivity | right ..];
    eexists _, _; (split; [reflexivity | vm_compute; lia]).
Qed.

Lemma Coerce_str_Integer_head (z : Z) :
  ∃ c r, Schema.Coerce_str (Schema.Integer z) = String c r
         ∧ (c = "-"%char ∨ (48 <= nat_of_ascii c <= 57)%nat).
Proof.
  destruct z as [|p|p]; cbn.
  - eexists _, _; split; [reflexivity | right; vm_compute; lia].
  - destruct (string_of_uint_head (Pos.to_uint p)) as [E|(c & r & E & Hc)].
    + now apply DecimalPos.Unsigned.to_uint_nonnil in E.
    + exists c, r; auto.
  - eexists _, _; split; [reflexivity | left; reflexivity].
Qed.

(** No integer coerces to one of the admitted states. *)
Lemma Integer_rejected (z : Z) : Schema.hazardsState (Schema.Integer z) = None.
Proof.
  unfold Schema.hazardsState.
  destruct (Coerce_str_Integer_head z) as (c & r & -> & Hc).
  case_bool_decide as H; [exfalso | reflexivity].
  unfold VALID_HAZARDS_STATE in H.
  repeat (apply elem_of_cons in H as [H|H];
          [first [ discriminate H
                 | injection H as -> _; destruct Hc as [Hc|Hc];
                   [discriminate Hc | vm_compute in Hc; lia] ] | ]).
  inversion H.
Qed.

(** The raw values that pass the validator, with what it returns. *)
Lemma hazardsState_accepts (raw : Schema.scalar) (hs : string) :
  Schema.hazardsState raw = Some hs ↔
  (raw, hs) ∈ [ (Schema.Text "open", "open"); (Schema.Text "closed", "closed");
                (Schema.Text "", ""); (Schema.Null, "None");
                (Schema.Text "none", "none"); (Schema.Text "None", "None") ].
Proof.
  split.
  - destruct raw as [|[]|z|s].
    + intros [= <-]. set_solver.
    + discriminate.
    + discriminate.
    + now rewrite Integer_rejected.
    + unfold Schema.hazardsState; cbn.
      case_bool_decide as H; [|discriminate]. intros [= <-].
      unfold VALID_HAZARDS_STATE in H.
      repeat (apply elem_of_cons in H as [H|H];
              [first [discriminate H | injection H as ->; set_solver] | ]).
      inversion H.
  - intros H.
    repeat (apply elem_of_cons in H as [H|H];
            [injection H as -> ->; reflexivity | ]).
    inversion H.
Qed.

(** The raw values that pass the validator of the hazards option. *)
Lemma hazards_accepts (raw : Schema.scalar) (hz : string) :
  Schema.hazards raw = Some hz ↔ raw = Schema.Text hz ∧ hz ∈ VALID_HAZARDS.
Proof.
  split.
  - destruct raw as [|[]|z|s]; try discriminate.
    + unfold Schema.hazards.
      destruct (Coerce_str_Integer_head z) as (c & r & -> & Hc).
      case_bool_decide as H; [exfalso | discriminate].
      unfold VALID_HAZARDS in H.
      repeat (apply elem_of_cons in H as [H|H];
              [injection H as -> _; destruct Hc as [Hc|Hc];
                 [discriminate Hc | vm_compute in Hc; lia] | ]).
      inversion H.
    + unfold Schema.hazards. cbn. case_bool_decide as H; [|discriminate].
      now intros [= <-].
  - intros [-> H]. unfold Schema.hazards. cbn. now rewrite bool_decide_eq_true_2.
Qed.

(** The defaults the schema names for the two options are capitalised and
    so are not among the values their validators admit. *)
Remark defaults_rejected :
  Schema.hazards (Schema.Text DEFAULT_HAZARDS) = None
  ∧ Schema.hazardsState (Schema.Text DEFAULT_HAZARDS_STATE) = None.
Proof. split; reflexivity. Qed.

End Coercion.

(** C1.  For every configuration the hazard key passed to the adapter is the
    lowercased hazard category alone when the lowercased hazards state is
    "none", and otherwise the lowercased category, a hyphen and the lowercased
    state.  The schema admits exactly the raw states "open", "closed", the
    empty string, None, "none" and "None"; the first three give the hyphenated
    key, the last three the category alone. *)
Theorem hazard_key_derivation (h : Hass.t) (config : ConfigType) :
  let hz := CONF_HAZARDS config in
  let hs := CONF_HAZARDS_STATE config in
  let key := adapter_hazard h config in
  (lower hs = "none" → key = lower hz)
  ∧ (lower hs ≠ "none" → key = lower hz +:+ "-" +:+ lower hs)
  ∧ (∀ raw, Schema.hazardsState raw = Some hs →
        (raw = Schema.Text "open" ∧ key = lower hz +:+ "-open")
      ∨ (raw = Schema.Text "closed" ∧ key = lower hz +:+ "-closed")
      ∨ (raw = Schema.Text "" ∧ key = lower hz +:+ "-")
      ∨ (raw ∈ [Schema.Null; Schema.Text "none"; Schema.Text "None"]
         ∧ key = lower hz))
  ∧ (∀ raw, raw ∈ [Schema.Text "open"; Schema.Text "closed"; Schema.Text "";
                   Schema.Null; Schema.Text "none"; Schema.Text "None"] →
       is_Some (Schema.hazardsState raw)).
Proof.
  intros hz hs key.
  assert (Hkey : key = if String.eqb (lower hs) "none" then lower hz
                       else lower hz +:+ "-" +:+ lower hs) by reflexivity.
  split; [|split; [|split]].
  - intros E. rewrite Hkey, E. reflexivity.
  - intros E. rewrite Hkey. apply String.eqb_neq in E. now rewrite E.
  - intros raw Hraw. apply hazardsState_accepts in Hraw.
    rewrite Hkey. clear Hkey. generalize dependent hs. intros hs Hraw.
    repeat (apply elem_of_cons in Hraw as [Hraw|Hraw];
            [injection Hraw as -> ->; cbn; set_solver | ]).
    inversion Hraw.
  - intros raw Hraw.
    repeat (apply elem_of_cons in Hraw as [->|Hraw]; [eexists; reflexivity|]).
    inversion Hraw.
Qed.

Lemma hazard_key_derivation_witness :
  adapter_hazard hass0 (config_of "Fire" "None") = "fire"
  ∧ adapter_hazard hass0 (config_of "Incident" "Open") = "incident-open"
  ∧ adapter_hazard hass0 (config_of "flood" "closed") = "flood-closed".
Proof.
  split; [|split].
  - apply (hazard_key_derivation hass0 (config_of "Fire" "None")). reflexivity.
  - apply (hazard_key_derivation hass0 (config_of "Incident" "Open")). discriminate.
  - destruct (hazard_key_derivation hass0 (config_of "flood" "closed"))
      as (_ & _ & H & _).
    destruct (H (Schema.Text "closed") eq_refl)
      as [[E _]|[[_ E]|[[E _]|[E _]]]];
      [discriminate E | exact E | discriminate E | ].
    exfalso. repeat (apply elem_of_cons in E as [E|E]; [discriminate E|]).
    inversion E.
Defined.

(** ** Markup stripping *)

Section Stripping.

(** A match of the pattern ends strictly inside the text it starts in. *)
Lemma tag_close_length (s rest : string) :
  tag_close s = Some rest → (String.length rest < String.length s)%nat.
Proof.
  induction s as [|c r IH]; cbn; [discriminate|].
  destruct (Ascii.eqb c ">"); [intros [= ->]; lia|].
  destruct (Ascii.eqb c "<"); [discriminate|].
  intros H. apply IH in H. lia.
Qed.

Lemma tag_match_length (s rest : string) :
  tag_match s = Some rest → (String.length rest < String.length s)%nat.
Proof.
  destruct s as [|c0 [|c1 r]]; cbn; try discriminate.
  destruct (_ && _); [|discriminate].
  intros H. apply tag_close_length in H. lia.
Qed.

Lemma sub_tags_empty (n : nat) : sub_tags n "" = "".
Proof. now destruct n. Qed.

(** More fuel than the length of the text changes nothing. *)
Lemma sub_tags_fuel (n : nat) : ∀ (m : nat) (s : string),
  (String.length s ≤ n)%nat → (String.length s ≤ m)%nat →
  sub_tags n s = sub_tags m s.
Proof.
  induction n as [|n IH]; intros m s Hn Hm.
  - destruct s; [now rewrite !sub_tags_empty | cbn in Hn; lia].
  - destruct s as [|c r]; [now rewrite !sub_tags_empty|].
    destruct m as [|m]; [cbn in Hm; lia|].
    cbn [sub_tags]. cbn in Hn, Hm.
    destruct (tag_match (String c r)) as [rest|] eqn:E.
    + apply tag_match_length in E. cbn in E. apply IH; lia.
    + f_equal. apply IH; lia.
Qed.

(** The scan, one step at a time. *)
Lemma re_sub_tags_drop (s rest : string) :
  tag_match s = Some rest → re_sub_tags s = re_sub_tags rest.
Proof.
  intros E. unfold re_sub_tags.
  destruct s as [|c r]; [discriminate|].
  cbn [String.length sub_tags]. rewrite E.
  apply tag_match_length in E. cbn in E. apply sub_tags_fuel; lia.
Qed.

Lemma re_sub_tags_keep (c : ascii) (r : string) :
  tag_match (String c r) = None →
  re_sub_tags (String c r) = String c (re_sub_tags r).
Proof.
  intros E. unfold re_sub_tags. cbn [String.length sub_tags]. now rewrite E.
Qed.

Lemma has_tag_false_id (s : string) : has_tag s = false → re_sub_tags s = s.
Proof.
  induction s as [|c r IH]; [reflexivity|].
  cbn [has_tag]. intros H. apply orb_false_iff in H as [H1 H2].
  apply bool_decide_eq_false in H1.
  rewrite re_sub_tags_keep, IH; [reflexivity | assumption |].
  destruct (tag_match (String c r)); [destruct H1; eauto | reflexivity].
Qed.

Lemma tags_closed_tail (c : ascii) (r : string) :
  tags_closed (String c r) = true → tags_closed r = true.
Proof. cbn [tags_closed]. intros H. now apply andb_true_iff in H. Qed.

Lemma tag_close_closed (s rest : string) :
  tag_close s = Some rest → tags_closed s = true → tags_closed rest = true.
Proof.
  induction s as [|c r IH]; cbn [tag_close]; [discriminate|].
  intros H Hs. apply tags_closed_tail in Hs.
  destruct (Ascii.eqb c ">"); [now injection H as <-|].
  destruct (Ascii.eqb c "<"); [discriminate|]. auto.
Qed.

Lemma tag_match_closed (s rest : string) :
  tag_match s = Some rest → tags_closed s = true → tags_closed rest = true.
Proof.
  destruct s as [|c0 [|c1 r]]; cbn [tag_match]; try discriminate.
  destruct (_ && _); [|discriminate].
  intros H Hs. do 2 apply tags_closed_tail in Hs.
  eapply tag_close_closed; eauto.
Qed.

(** Where every "<" starts a match, the scan leaves no "<" behind. *)
Lemma re_sub_tags_closed (s : string) :
  tags_closed s = true → has_char "<" (re_sub_tags s) = false.
Proof.
  remember (String.length s) as n eqn:Hn.
  revert s Hn. induction n as [n IH] using lt_wf_ind. intros s -> Hs.
  destruct s as [|c r]; [reflexivity|].
  destruct (tag_match (String c r)) as [rest|] eqn:E.
  - rewrite (re_sub_tags_drop _ _ E).
    eapply IH; [apply (tag_match_length _ _ E) | reflexivity |].
    eapply tag_match_closed; eauto.
  - rewrite (re_sub_tags_keep _ _ E). cbn [has_char].
    pose proof (tags_closed_tail _ _ Hs) as Hr.
    cbn [tags_closed] in Hs. rewrite E in Hs.
    rewrite (IH (String.length r)); [| cbn; lia | reflexivity | exact Hr].
    destruct (Ascii.eqb c "<") eqn:Ec; [exfalso|reflexivity].
    apply andb_true_iff in Hs as [Hs _].
    apply orb_true_iff in Hs as [Hs|Hs]; [discriminate Hs|].
    apply bool_decide_eq_true in Hs. destruct Hs as [? [=]].
Qed.

(** A text without "<" holds no match. *)
Lemma has_char_lt_has_tag (s : string) :
  has_char "<" s = false → has_tag s = false.
Proof.
  induction s as [|c r IH]; [reflexivity|].
  cbn [has_char has_tag]. intros H. apply orb_false_iff in H as [Hc Hr].
  rewrite (IH Hr), orb_false_r. apply bool_decide_eq_false.
  intros [rest E]. destruct r as [|c1 r]; [discriminate E|].
  cbn in E. rewrite Hc in E. discriminate E.
Qed.

End Stripping.

(** ** The refresh operation *)

(** A refresh whose three stripped fields are strings runs to its end; this
    is the entity it leaves. *)
Lemma update_from_feed_ok (fe : FeedEntry.t) (e : LocationEvent.t)
    (oa ao dv : string) :
  FeedEntry.otherAdvice fe = VStr oa →
  FeedEntry.adviceOther fe = VStr ao →
  FeedEntry.diversions fe = VStr dv →
  _update_from_feed fe e =
  ({| _external_id := FeedEntry.external_id fe;
      _name := FeedEntry.title fe;
      _distance := FeedEntry.distance_to_home fe;
      _latitude := (FeedEntry.coordinates fe).1;
      _longitude := (FeedEntry.coordinates fe).2;
      _attribution := FeedEntry.attribution fe;
      _title := _title e;
      _category := FeedEntry.category fe;
      _publication_date := FeedEntry.publication_date fe;
      _description := FeedEntry.description fe;
      _publicTransport := FeedEntry.publicTransport fe;
      _adviceA := FeedEntry.adviceA fe;
      _adviceB := FeedEntry.adviceB fe;
      _adviceOther := VStr (re_sub_tags ao);
      _isMajor := FeedEntry.isMajor fe;
      _isEnded := FeedEntry.isEnded fe;
      _isNew := FeedEntry.isNew fe;
      _isImpactNetwork := FeedEntry.isImpactNetwork fe;
      _diversions := VStr (re_sub_tags dv);
      _type := FeedEntry.type fe;
      _subCategory := FeedEntry.subCategory fe;
      _duration := FeedEntry.duration fe;
      _road := FeedEntry.road fe;
      _council_area := FeedEntry.council_area fe;
      _hazard := _hazard e;
      _picture := picture e;
      _otherAdvice := Some (VStr (re_sub_tags oa));
      _feature_type := Some (FeedEntry.feature_type fe);
      _remove_signal_delete := _remove_signal_delete e;
      _remove_signal_update := _remove_signal_update e |}, Ok tt).
Proof.
  intros Hoa Hao Hdv. unfold _update_from_feed.
  rewrite Hoa, Hao, Hdv. reflexivity.
Qed.

(** C2, as stated, fails.  After a refresh from an entry whose [adviceOther]
    is "<<a>b>" and whose [adviceA] is "<b>x</b>", the entity's [adviceOther]
    is "<b>", which matches the pattern, and its [adviceA] still is
    "<b>x</b>". *)
Lemma refresh_leaves_markup :
  let e' := (_update_from_feed (entry_with "1234" "<b>x</b>" "<<a>b>") event0).1 in
  _adviceOther e' = VStr "<b>" ∧ ¬ markup_free (_adviceOther e')
  ∧ _adviceA e' = VStr "<b>x</b>" ∧ ¬ markup_free (_adviceA e').
Proof.
  cbv zeta. split; [reflexivity|]. split; [|split; [reflexivity|]].
  - intros H. specialize (H "<b>" eq_refl). vm_compute in H. discriminate H.
  - intros H. specialize (H "<b>x</b>" eq_refl). vm_compute in H. discriminate H.
Qed.

(** C2, amended.  A refresh from an entry whose [otherAdvice], [adviceOther]
    and [diversions] are strings succeeds.  It stores these three with every
    match of the pattern found by one left-to-right scan dropped, and copies
    every other field as it is, [adviceA], [adviceB] and [description]
    included.  The scan drops a match where one starts and resumes behind it,
    and keeps one character elsewhere; so a text without a match is stored
    unchanged, and where every "<" of a text starts a match, the stored text
    holds no "<" and no match. *)
Theorem refresh_strips_in_one_pass (fe : FeedEntry.t) (e : LocationEvent.t)
    (oa ao dv : string) :
  FeedEntry.otherAdvice fe = VStr oa →
  FeedEntry.adviceOther fe = VStr ao →
  FeedEntry.diversions fe = VStr dv →
  ∃ e', _update_from_feed fe e = (e', Ok tt)
    ∧ (_otherAdvice e' = Some (VStr (re_sub_tags oa))
       ∧ _adviceOther e' = VStr (re_sub_tags ao)
       ∧ _diversions e' = VStr (re_sub_tags dv))
    ∧ (_attribution e' = FeedEntry.attribution fe
       ∧ _name e' = FeedEntry.title fe
       ∧ _category e' = FeedEntry.category fe
       ∧ _external_id e' = FeedEntry.external_id fe
       ∧ _publication_date e' = FeedEntry.publication_date fe
       ∧ _description e' = FeedEntry.description fe
       ∧ _publicTransport e' = FeedEntry.publicTransport fe
       ∧ _adviceA e' = FeedEntry.adviceA fe
       ∧ _adviceB e' = FeedEntry.adviceB fe
       ∧ _isMajor e' = FeedEntry.isMajor fe
       ∧ _isEnded e' = FeedEntry.isEnded fe
       ∧ _isNew e' = FeedEntry.isNew fe
       ∧ _isImpactNetwork e' = FeedEntry.isImpactNetwork fe
       ∧ _type e' = FeedEntry.type fe
       ∧ _subCategory e' = FeedEntry.subCategory fe
       ∧ _duration e' = FeedEntry.duration fe
       ∧ _feature_type e' = Some (FeedEntry.feature_type fe)
       ∧ _road e' = FeedEntry.road fe
       ∧ _council_area e' = FeedEntry.council_area fe
       ∧ _distance e' = FeedEntry.distance_to_home fe
       ∧ _latitude e' = (FeedEntry.coordinates fe).1
       ∧ _longitude e' = (FeedEntry.coordinates fe).2)
    ∧ (∀ s : string,
         (∀ rest, tag_match s = Some rest → re_sub_tags s = re_sub_tags rest)
         ∧ (∀ c r, s = String c r → tag_match s = None →
              re_sub_tags s = String c (re_sub_tags r))
         ∧ (has_tag s = false → re_sub_tags s = s)
         ∧ (tags_closed s = true →
            has_char "<" (re_sub_tags s) = false
            ∧ has_tag (re_sub_tags s) = false)).
Proof.
  intros Hoa Hao Hdv. eexists. split; [exact (update_from_feed_ok _ e _ _ _ Hoa Hao Hdv)|].
  split; [repeat split|]. split; [repeat split|].
  intros s. split; [apply re_sub_tags_drop|].
  split; [intros c r ->; apply re_sub_tags_keep|].
  split; [apply has_tag_false_id|].
  intros Hs. pose proof (re_sub_tags_closed s Hs) as H.
  split; [exact H | now apply has_char_lt_has_tag].
Qed.

Lemma refresh_strips_in_one_pass_witness :
  ∃ e', _update_from_feed
          (entry_with "1234" "Exercise caution" "Allow <b>extra</b> time<br/>") event0
        = (e', Ok tt)
        ∧ _adviceOther e' = VStr "Allow extra time"
        ∧ _adviceA e' = VStr "Exercise caution".
Proof.
  destruct (refresh_strips_in_one_pass
              (entry_with "1234" "Exercise caution" "Allow <b>extra</b> time<br/>")
              event0 "" "Allow <b>extra</b> time<br/>" "" eq_refl eq_refl eq_refl)
    as (e' & Hrun & (_ & Hother & _) & (_ & _ & _ & _ & _ & _ & _ & HA & _) & _).
  exists e'. split; [exact Hrun|]. split; [exact Hother | exact HA].
Defined.

(** ** The derived attribute map *)

Section Attributes.

Lemma put_attributes_other (l : list (string * value)) :
  ∀ (acc : gmap string value) (k : string),
    k ∉ l.*1 → foldl put_attribute acc l !! k = acc !! k.
Proof.
  induction l as [|[k' v'] l IH]; intros acc k Hk; [reflexivity|].
  cbn [foldl]. rewrite fmap_cons in Hk. apply not_elem_of_cons in Hk as [Hne Hk].
  rewrite (IH _ _ Hk). unfold put_attribute. cbn in *.
  destruct (_ || _); [|reflexivity]. now apply lookup_insert_ne.
Qed.

(** With pairwise different keys, a key's entry is decided by its own pair. *)
Lemma put_attributes_lookup (l : list (string * value)) :
  ∀ (acc : gmap string value) (k : string) (v : value),
    NoDup l.*1 → (k, v) ∈ l →
    foldl put_attribute acc l !! k = if kept v then Some v else acc !! k.
Proof.
  induction l as [|[k' v'] l IH]; intros acc k v Hnd Hin; [inversion Hin|].
  rewrite fmap_cons in Hnd. apply NoDup_cons in Hnd as [Hk' Hnd].
  cbn [foldl]. apply elem_of_cons in Hin as [[= -> ->]|Hin].
  - rewrite (put_attributes_other _ _ _ Hk'). unfold put_attribute, kept. cbn.
    destruct (_ || _); [apply lookup_insert_eq | reflexivity].
  - rewrite (IH _ _ _ Hnd Hin). destruct (kept v); [reflexivity|].
    unfold put_attribute. cbn. destruct (_ || _); [|reflexivity].
    apply lookup_insert_ne. intros ->. apply Hk'.
    apply list_elem_of_fmap. now exists (k, v).
Qed.

Lemma attribute_pairs_keys (e : LocationEvent.t) :
  (attribute_pairs e).*1 = attribute_keys.
Proof. reflexivity. Qed.

Lemma attribute_keys_NoDup : NoDup attribute_keys.
Proof. apply (bool_decide_unpack (NoDup attribute_keys)). vm_compute. exact I. Qed.

Lemma attributes_lookup (e : LocationEvent.t) (k : string) (v : value) :
  (k, v) ∈ attribute_pairs e →
  device_state_attributes e !! k = if kept v then Some v else None.
Proof.
  intros Hin. unfold device_state_attributes.
  rewrite (put_attributes_lookup _ ∅ k v); [now destruct (kept v) | | exact Hin].
  rewrite attribute_pairs_keys. apply attribute_keys_NoDup.
Qed.


End Attributes.



(** ** Icon and picture *)

Section Prefixes.

Lemma startswith_app (p : string) : ∀ s : string,
  startswith s p = true → ∃ r, s = p +:+ r.
Proof.
  unfold startswith.
  induction p as [|a p IH]; intros s H; [now exists s|].
  destruct s as [|b s]; [discriminate H|]. cbn in H.
  destruct (ascii_dec a b) as [->|]; [|discriminate H].
  destruct (IH s H) as [r ->]. now exists r.
Qed.

(** No text starts with two of the six prefixes. *)
Lemma startswith_exclusive (s : string) (p q : hazard_prefix) :
  startswith s (prefix_text p) = true → q ≠ p →
  startswith s (prefix_text q) = false.
Proof.
  intros H Hne. apply startswith_app in H as [r ->].
  destruct p, q; try congruence; reflexivity.
Qed.

Lemma startswith_which (s : string) (p : hazard_prefix) :
  startswith s (prefix_text p) = true →
  ∀ q, startswith s (prefix_text q) = bool_decide (q = p).
Proof.
  intros H q. destruct (decide (q = p)) as [->|Hne].
  - now rewrite bool_decide_eq_true_2.
  - rewrite bool_decide_eq_false_2 by assumption.
    now apply (startswith_exclusive s p q).
Qed.

(** The key of a configuration that passes the schema is ASCII text. *)
Lemma admitted_key_is_ascii (h : Hass.t) (config : ConfigType)
    (raw raw' : Schema.scalar) :
  Schema.hazards raw = Some (CONF_HAZARDS config) →
  Schema.hazardsState raw' = Some (CONF_HAZARDS_STATE config) →
  is_ascii (adapter_hazard h config) = true.
Proof.
  intros Hz Hs. apply hazards_accepts in Hz as [_ Hz].
  apply hazardsState_accepts in Hs.
  unfold adapter_hazard. cbn.
  revert Hz Hs. generalize (CONF_HAZARDS config) (CONF_HAZARDS_STATE config).
  intros hz hs Hz Hs. unfold VALID_HAZARDS in Hz.
  repeat (apply elem_of_cons in Hz as [->|Hz];
    [repeat (apply elem_of_cons in Hs as [Hs|Hs];
             [injection Hs as _ ->; reflexivity|]); inversion Hs|]).
  inversion Hz.
Qed.

End Prefixes.

(** C4.  For every hazard classification that is ASCII text, where [lower]
    is [str.lower]: icon and picture look only at the lowercased form of the
    classification.  If that form starts with one of incident, fire, flood,
    alpine, major, roadwork, the icon is the alert, fire, flood, snow,
    celebration or road icon and the picture is the fixed image of that
    prefix; if it starts with none of them, the icon is the generic alarm
    icon and there is no picture.  Two ASCII classifications that differ only
    in case give the same icon and picture.  Every classification the
    bootstrap derives from a configuration the schema admits is ASCII
    text. *)
Theorem icon_picture_by_prefix (e : LocationEvent.t) :
  is_ascii (_hazard e) = true →
  (∀ p, startswith (lower (_hazard e)) (prefix_text p) = true →
     icon e = icon_for p ∧ picture e = VStr (picture_for p))
  ∧ ((∀ p, startswith (lower (_hazard e)) (prefix_text p) = false) →
     icon e = "mdi:alarm-light" ∧ picture e = VNone)
  ∧ (∀ e', is_ascii (_hazard e') = true →
     lower (_hazard e') = lower (_hazard e) →
     icon e' = icon e ∧ picture e' = picture e)
  ∧ (∀ h config raw raw',
       Schema.hazards raw = Some (CONF_HAZARDS config) →
       Schema.hazardsState raw' = Some (CONF_HAZARDS_STATE config) →
       is_ascii (adapter_hazard h config) = true).
Proof.
  intros _. split; [|split; [|split]].
  - intros p H. pose proof (startswith_which _ p H) as W.
    pose proof (W Incident) as H1. pose proof (W Fire) as H2.
    pose proof (W Flood) as H3. pose proof (W Alpine) as H4.
    pose proof (W Major) as H5. pose proof (W Roadwork) as H6.
    cbn [prefix_text] in H1, H2, H3, H4, H5, H6.
    unfold icon, picture. rewrite H1, H2, H3, H4, H5, H6.
    destruct p; split; reflexivity.
  - intros W.
    pose proof (W Incident) as H1. pose proof (W Fire) as H2.
    pose proof (W Flood) as H3. pose proof (W Alpine) as H4.
    pose proof (W Major) as H5. pose proof (W Roadwork) as H6.
    cbn [prefix_text] in H1, H2, H3, H4, H5, H6.
    unfold icon, picture. rewrite H1, H2, H3, H4, H5, H6. split; reflexivity.
  - intros e' _ H. unfold icon, picture. rewrite H. split; reflexivity.
  - apply admitted_key_is_ascii.
Qed.

Lemma icon_picture_by_prefix_witness :
  (icon (event_of "Incident-open") = "mdi:alert"
   ∧ picture (event_of "Incident-open")
     = VStr "https://www.livetraffic.com/images/icons/hazard/traffic-incident.gif")
  ∧ (icon (event_of "ROADWORK") = "mdi:road-variant"
     ∧ picture (event_of "ROADWORK")
       = VStr "https://www.livetraffic.com/images/icons/hazard/road-work-3.png")
  ∧ (icon (event_of "earthquake") = "mdi:alarm-light"
     ∧ picture (event_of "earthquake") = VNone)
  ∧ (icon (event_of "FiRe") = icon (event_of "fire")
     ∧ picture (event_of "FiRe") = picture (event_of "fire")).
Proof.
  split; [|split; [|split]].
  - apply (proj1 (icon_picture_by_prefix (event_of "Incident-open") eq_refl) Incident).
    reflexivity.
  - apply (proj1 (icon_picture_by_prefix (event_of "ROADWORK") eq_refl) Roadwork).
    reflexivity.
  - apply (proj1 (proj2 (icon_picture_by_prefix (event_of "earthquake") eq_refl))).
    intros []; reflexivity.
  - apply (proj1 (proj2 (proj2 (icon_picture_by_prefix (event_of "fire") eq_refl))));
      reflexivity.
Defined.

(** ** Refresh without an entry *)

(** C5.  When the manager has no entry for the entity's external id, the
    refresh returns normally and leaves every field of the entity as it was.
    Run by the host as a state update, it leaves the whole world as it was:
    the entity stays registered, its subscriptions stay, and no task, so no
    removal, is scheduled. *)
Theorem refresh_without_entry (m : Manager.t) (e : LocationEvent.t) :
  Manager.get_entry m (_external_id e) = None →
  LocationEvent.async_update m e = (e, Ok tt)
  ∧ ∀ (w : Platform.World) (self : nat),
      Platform.manager w = m →
      Platform.entities w !! self = Some e →
      Platform.async_update_ha_state self w = (w, Ok tt).
Proof.
  intros Hnone.
  assert (Hupd : LocationEvent.async_update m e = (e, Ok tt)).
  { unfold LocationEvent.async_update. now rewrite Hnone. }
  split; [exact Hupd|].
  intros w self Hm He. unfold Platform.async_update_ha_state.
  rewrite He, Hm, Hupd. destruct w as [h m' es n]. cbn in *.
  subst m'. now rewrite (insert_id es self e He).
Qed.

Lemma refresh_without_entry_witness :
  LocationEvent.async_update (Platform.manager world2) (entity_of world2 0)
  = (entity_of world2 0, Ok tt)
  ∧ Platform.async_update_ha_state 0 world2 = (world2, Ok tt).
Proof.
  assert (Hnone : Manager.get_entry (Platform.manager world2)
                    (_external_id (entity_of world2 0)) = None)
    by (vm_compute; reflexivity).
  destruct (refresh_without_entry _ _ Hnone) as [H1 H2].
  split; [exact H1|]. apply H2; [reflexivity | vm_compute; reflexivity].
Defined.

(** ** The delete signal *)

(** C6, as stated, fails.  In [world1] the entity 0 is subscribed to both of
    its channels.  When the delete signal of its id is sent, its removal is
    requested (the task is created) while both subscriptions are still in
    place. *)
Lemma delete_signal_requests_removal_first :
  let w := Platform._remove_entity "1234" world1 in
  Hass.tasks (Platform.hass w)
  = (Hass.tasks (Platform.hass world1) ++ [Hass.EntityAsyncRemove 0])%list
  ∧ Hass.connected (SIGNAL_DELETE_ENTITY "1234") (Platform.hass w)
    = [Hass.DeleteCallback 0]
  ∧ Hass.connected (SIGNAL_UPDATE_ENTITY "1234") (Platform.hass w)
    = [Hass.UpdateCallback 0].
Proof. vm_compute. repeat split. Qed.

Section Unsubscribing.

Lemma filter_all {A} (P : A → Prop) `{∀ x, Decision (P x)} (l : list A) :
  Forall P l → filter P l = l.
Proof.
  induction 1 as [|x l Hx _ IH]; [reflexivity|].
  now rewrite filter_cons_True, IH.
Qed.

Lemma filter_filter_and {A} (P Q : A → Prop)
    `{∀ x, Decision (P x)} `{∀ x, Decision (Q x)} (l : list A) :
  filter Q (filter P l) = filter (λ x, P x ∧ Q x) l.
Proof.
  induction l as [|x l IH]; [reflexivity|].
  destruct (decide (P x)) as [HP|HP].
  - rewrite (filter_cons_True P) by assumption.
    destruct (decide (Q x)) as [HQ|HQ].
    + rewrite !filter_cons_True by auto. now rewrite IH.
    + rewrite !filter_cons_False by tauto. exact IH.
  - rewrite (filter_cons_False P) by assumption.
    rewrite filter_cons_False by tauto. exact IH.
Qed.

(** The detach hook of an attached entity. *)
Lemma will_remove_attached (e : LocationEvent.t) (h : Hass.t) (kd ku : Hass.handle) :
  _remove_signal_delete e = Some kd → _remove_signal_update e = Some ku →
  async_will_remove_from_hass e h
  = (Hass.call_remove ku (Hass.call_remove kd h), Ok tt).
Proof. intros Hd Hu. unfold async_will_remove_from_hass. now rewrite Hd, Hu. Qed.

Lemma call_remove_twice_dispatcher (h : Hass.t) (kd ku : Hass.handle) :
  Hass.dispatcher (Hass.call_remove ku (Hass.call_remove kd h))
  = filter (λ r, r.1 ≠ kd ∧ r.1 ≠ ku) (Hass.dispatcher h).
Proof. cbn. apply filter_filter_and. Qed.

(** The detach hook of an attached entity on a logged host. *)
Lemma will_remove_logged_attached (e : LocationEvent.t) (h : Hass.t)
    (log : list Hass.effect) (kd ku : Hass.handle) :
  _remove_signal_delete e = Some kd → _remove_signal_update e = Some ku →
  async_will_remove_from_hass_logged e (h, log)
  = ((Hass.call_remove ku (Hass.call_remove kd h),
      (log ++ [Hass.Unsubscribed kd; Hass.Unsubscribed ku])%list), Ok tt).
Proof.
  intros Hd Hu. unfold async_will_remove_from_hass_logged. rewrite Hd, Hu.
  unfold Hass.call_remove_logged. cbn [fst snd]. now rewrite <- app_assoc.
Qed.

(** Without its log, the logged hook is the hook, and the logged removal the
    removal. *)
Lemma will_remove_logged_erase (e : LocationEvent.t) (h : Hass.t)
    (log : list Hass.effect) :
  ((async_will_remove_from_hass_logged e (h, log)).1.1,
   (async_will_remove_from_hass_logged e (h, log)).2)
  = async_will_remove_from_hass e h.
Proof.
  unfold async_will_remove_from_hass_logged, async_will_remove_from_hass.
  destruct (_remove_signal_delete e); [|reflexivity].
  destruct (_remove_signal_update e); reflexivity.
Qed.

Lemma async_remove_logged_erase (self : nat) (w : Platform.World)
    (log : list Hass.effect) :
  ((Platform.async_remove_logged self w log).1.1,
   (Platform.async_remove_logged self w log).2)
  = Platform.async_remove self w.
Proof.
  unfold Platform.async_remove_logged, Platform.async_remove.
  destruct (Platform.entities w !! self) as [e|]; [|reflexivity].
  pose proof (will_remove_logged_erase e (Platform.hass w) log) as H.
  destruct (async_will_remove_from_hass_logged e (Platform.hass w, log))
    as [[h' log'] [[]|x]]; cbn in H; rewrite <- H; reflexivity.
Qed.

End Unsubscribing.

(** C6, amended.  On a delete signal the entity only requests its removal
    from the host: creating the removal task is the one effect of the delete
    callback, and no subscription changes.  The entity unsubscribes in its
    detach hook, from the delete channel first and from the update channel
    second: the hook's log is the call of the delete unsubscribe function
    followed by the call of the update one, and these two functions are, from
    attaching on, the handles of the entity's registrations on the delete and
    on the update channel of its id.  The host's removal runs the hook before
    it lets go of the entity: its log is the hook's, followed by the release
    of the entity.  So the unsubscribing comes before the removal itself, not
    before the request for it.  The order also shows in the states alone: a
    hook that finds no delete function raises with the host as it was, a hook
    that finds no update function raises when the delete subscription is
    already gone, and when the hook raises the host still has the entity.  On
    a host whose handles in use are older than the next one, detaching undoes
    exactly what attaching subscribed. *)
Theorem delete_signal_then_detach (self : nat) (e : LocationEvent.t) (h : Hass.t)
    (kd ku : Hass.handle) :
  _remove_signal_delete e = Some kd →
  _remove_signal_update e = Some ku →
  ((∀ log, _delete_callback_logged self (h, log)
           = (_delete_callback self h,
              (log ++ [Hass.TaskCreated (Hass.EntityAsyncRemove self)])%list))
   ∧ Hass.tasks (_delete_callback self h)
     = (Hass.tasks h ++ [Hass.EntityAsyncRemove self])%list
   ∧ Hass.dispatcher (_delete_callback self h) = Hass.dispatcher h)
  ∧ (∃ h', async_will_remove_from_hass e h = (h', Ok tt)
       ∧ (∀ log, async_will_remove_from_hass_logged e (h, log)
                 = ((h', (log ++ [Hass.Unsubscribed kd; Hass.Unsubscribed ku])%list),
                    Ok tt))
       ∧ Hass.dispatcher h' = filter (λ r, r.1 ≠ kd ∧ r.1 ≠ ku) (Hass.dispatcher h))
  ∧ (∀ w, Platform.hass w = h → Platform.entities w !! self = Some e →
       ∃ w', Platform.async_remove self w = (w', Ok tt)
         ∧ (∀ log, Platform.async_remove_logged self w log
                   = ((w', (log ++ [Hass.Unsubscribed kd; Hass.Unsubscribed ku;
                                    Hass.EntityGone self])%list), Ok tt))
         ∧ Platform.entities w' !! self = None
         ∧ Hass.dispatcher (Platform.hass w')
           = filter (λ r, r.1 ≠ kd ∧ r.1 ≠ ku) (Hass.dispatcher h))
  ∧ (∀ (self' : nat) (e0 : LocationEvent.t) (h0 : Hass.t),
       let e1 := (async_added_to_hass self' e0 h0).1 in
       let h1 := (async_added_to_hass self' e0 h0).2 in
       ∃ kd' ku',
         _remove_signal_delete e1 = Some kd'
         ∧ _remove_signal_update e1 = Some ku'
         ∧ Hass.dispatcher h1
           = (Hass.dispatcher h0
              ++ [(kd', (SIGNAL_DELETE_ENTITY (_external_id e0),
                         Hass.DeleteCallback self'));
                  (ku', (SIGNAL_UPDATE_ENTITY (_external_id e0),
                         Hass.UpdateCallback self'))])%list
         ∧ (Hass.fresh h0 →
            ∃ h2, async_will_remove_from_hass e1 h1 = (h2, Ok tt)
                  ∧ Hass.dispatcher h2 = Hass.dispatcher h0))
  ∧ (∀ (e' : LocationEvent.t) (h0 : Hass.t),
       (_remove_signal_delete e' = None →
        async_will_remove_from_hass e' h0 = (h0, Raise AttributeError))
       ∧ (∀ k, _remove_signal_delete e' = Some k → _remove_signal_update e' = None →
            async_will_remove_from_hass e' h0
            = (Hass.call_remove k h0, Raise AttributeError))
       ∧ (∀ w h' x, Platform.hass w = h0 → Platform.entities w !! self = Some e' →
            async_will_remove_from_hass e' h0 = (h', Raise x) →
            Platform.entities (Platform.async_remove self w).1 !! self = Some e'
            ∧ (Platform.async_remove self w).2 = Raise x)).
Proof.
  intros Hd Hu.
  split; [split; [reflexivity | split; reflexivity]|].
  split; [|split; [|split]].
  - eexists. split; [exact (will_remove_attached e h kd ku Hd Hu)|].
    split; [intros log; exact (will_remove_logged_attached e h log kd ku Hd Hu)|].
    apply call_remove_twice_dispatcher.
  - intros w Hw He. unfold Platform.async_remove, Platform.async_remove_logged.
    rewrite He, Hw, (will_remove_attached e h kd ku Hd Hu).
    eexists. split; [reflexivity|]. split; [|split].
    + intros log. rewrite (will_remove_logged_attached e h log kd ku Hd Hu).
      now rewrite <- app_assoc.
    + apply lookup_delete_eq.
    + apply call_remove_twice_dispatcher.
  - intros self' e0 h0. cbv zeta. eexists _, _.
    split; [reflexivity|]. split; [reflexivity|]. split.
    + cbn. now rewrite <- app_assoc.
    + intros [_ Hfresh]. cbn. eexists. split; [reflexivity|]. cbn.
      rewrite filter_filter_and, !filter_app.
      rewrite (filter_all _ (Hass.dispatcher h0)).
      * rewrite !filter_cons_False, filter_nil, !app_nil_r; cbn; tauto.
      * eapply Forall_impl; [exact Hfresh|]. cbn.
        intros [k ?] Hr. unfold Hass.handle in *. cbn in *. lia.
  - intros e' h0. split; [|split].
    + intros E. unfold async_will_remove_from_hass. now rewrite E.
    + intros k E1 E2. unfold async_will_remove_from_hass. now rewrite E1, E2.
    + intros w h' x Hw He Hx. unfold Platform.async_remove.
      rewrite He, Hw, Hx. split; [exact He | reflexivity].
Qed.

Lemma delete_signal_then_detach_witness :
  ∃ w', Platform.async_remove 0 world2 = (w', Ok tt)
        ∧ Platform.async_remove_logged 0 world2 []
          = ((w', [Hass.Unsubscribed 0%nat; Hass.Unsubscribed 1%nat;
                   Hass.EntityGone 0]), Ok tt)
        ∧ Platform.entities w' !! 0%nat = None
        ∧ Hass.dispatcher (Platform.hass w') = [].
Proof.
  destruct (delete_signal_then_detach 0 (entity_of world2 0) (Platform.hass world2)
              0%nat 1%nat eq_refl eq_refl) as (_ & _ & H & _).
  destruct (H world2 eq_refl) as (w' & Hrun & Hlog & Hgone & Hdisp);
    [vm_compute; reflexivity|].
  exists w'. split; [exact Hrun|]. split; [exact (Hlog [])|].
  split; [exact Hgone|]. rewrite Hdisp. vm_compute. reflexivity.
Defined.

(** ** What the operations leave alone *)

Section Frames.

Import Platform.

Lemma foldl_preserves {A B} (P : A → Prop) (f : A → B → A) (l : list B) :
  (∀ a b, P a → P (f a b)) → ∀ a, P a → P (foldl f a l).
Proof.
  intros Hf. induction l as [|b l IH]; intros a Ha; [exact Ha|].
  cbn. apply IH, Hf, Ha.
Qed.

(** *** The entity *)

(** No refresh, finished or cut short by an exception, assigns [_title] or
    [_hazard]. *)
Lemma update_from_feed_keeps (fe : FeedEntry.t) (e : LocationEvent.t) :
  _title (_update_from_feed fe e).1 = _title e
  ∧ _hazard (_update_from_feed fe e).1 = _hazard e.
Proof.
  unfold _update_from_feed.
  destruct (FeedEntry.otherAdvice fe); try (split; reflexivity).
  destruct (FeedEntry.adviceOther fe); try (split; reflexivity).
  destruct (FeedEntry.diversions fe); split; reflexivity.
Qed.

Lemma async_update_keeps (m : Manager.t) (e : LocationEvent.t) :
  _title (LocationEvent.async_update m e).1 = _title e
  ∧ _hazard (LocationEvent.async_update m e).1 = _hazard e.
Proof.
  unfold LocationEvent.async_update.
  destruct (Manager.get_entry m (_external_id e)); [|split; reflexivity].
  apply update_from_feed_keeps.
Qed.

(** *** The host *)

Lemma run_target_schedule (tg : Hass.target) (h : Hass.t) :
  schedule (run_target tg h) = schedule h.
Proof. now destruct tg. Qed.

Lemma async_dispatcher_send_schedule (signal : string) (h : Hass.t) :
  schedule (async_dispatcher_send signal h) = schedule h.
Proof.
  unfold async_dispatcher_send.
  apply (foldl_preserves (λ h', schedule h' = schedule h)); [|reflexivity].
  intros a tg <-. apply run_target_schedule.
Qed.

(** *** The manager's callbacks *)

Lemma run_callback_manager (cb : FeedManager.callback) (w : World) :
  manager (run_callback cb w) = manager w.
Proof. now destruct cb. Qed.

Lemma run_callback_schedule (cb : FeedManager.callback) (w : World) :
  schedule (hass (run_callback cb w)) = schedule (hass w).
Proof.
  destruct cb; cbn; [reflexivity | |]; apply async_dispatcher_send_schedule.
Qed.

Lemma run_callback_entities_ok (hz : string) (cb : FeedManager.callback) (w : World) :
  entities_ok hz w → entities_ok hz (run_callback cb w).
Proof.
  intros [Hm He]. destruct cb as [i|i|i]; [|split; assumption ..].
  split; [exact Hm|]. intros self e. cbn.
  destruct (decide (self = next_entity w)) as [->|Hne].
  - rewrite lookup_insert_eq. intros [= <-]. cbn. now split.
  - rewrite lookup_insert_ne by congruence. apply He.
Qed.

Lemma async_update_manager (feed : gmap string FeedEntry.t) (w : World) :
  Manager._hazard (manager (async_update feed w)) = Manager._hazard (manager w)
  ∧ Manager._track_time_remove_callback (manager (async_update feed w))
    = Manager._track_time_remove_callback (manager w)
  ∧ Manager._scan_interval (manager (async_update feed w))
    = Manager._scan_interval (manager w)
  ∧ update_calls (async_update feed w) = S (update_calls w).
Proof.
  unfold async_update. cbn.
  match goal with |- context [foldl ?f ?a ?l] =>
    assert (E : manager (foldl f a l) = manager a)
      by (apply (foldl_preserves (λ w', manager w' = manager a)); [|reflexivity];
          intros w' cb <-; apply run_callback_manager)
  end.
  unfold update_calls. rewrite E. repeat split.
Qed.

Lemma async_update_schedule (feed : gmap string FeedEntry.t) (w : World) :
  schedule (hass (async_update feed w)) = schedule (hass w).
Proof.
  unfold async_update. cbn.
  match goal with |- context [foldl ?f ?a ?l] =>
    apply (foldl_preserves (λ w', schedule (hass w') = schedule (hass w)));
      [|reflexivity]
  end.
  intros w' cb <-. apply run_callback_schedule.
Qed.

Lemma async_update_entities_ok (hz : string) (feed : gmap string FeedEntry.t) (w : World) :
  entities_ok hz w → entities_ok hz (async_update feed w).
Proof.
  intros Hw. unfold async_update. cbn.
  apply (foldl_preserves (entities_ok hz)).
  - intros w' cb. apply run_callback_entities_ok.
  - exact Hw.
Qed.

End Frames.

(** ** Invariants of the host's loop *)

Section Loop.

Import Platform.

(** *** No title, one classification *)

Lemma async_remove_entities_ok (hz : string) (self : nat) (w : World) :
  entities_ok hz w → entities_ok hz (async_remove self w).1.
Proof.
  intros [Hm He]. unfold async_remove.
  destruct (entities w !! self) as [e|]; [|now split].
  destruct (async_will_remove_from_hass e (hass w)) as [h [[]|x]];
    (split; [exact Hm|]); cbn; [|exact He].
  intros self' e' H. apply lookup_delete_Some in H as [_ H]. now apply (He self').
Qed.

Lemma async_update_ha_state_entities_ok (hz : string) (self : nat) (w : World) :
  entities_ok hz w → entities_ok hz (async_update_ha_state self w).1.
Proof.
  intros [Hm He]. unfold async_update_ha_state.
  destruct (entities w !! self) as [e|] eqn:E; [|now split].
  pose proof (async_update_keeps (manager w) e) as [Ht Hh].
  destruct (LocationEvent.async_update (manager w) e) as [e' r]. cbn in *.
  split; [exact Hm|]. intros self' e''. cbn.
  destruct (decide (self' = self)) as [->|Hne].
  - rewrite lookup_insert_eq. intros [= <-].
    destruct (He _ _ E) as [H1 H2]. split; congruence.
  - rewrite lookup_insert_ne by congruence. apply He.
Qed.

Lemma entities_ok_set_hass (hz : string) (h : Hass.t) (w : World) :
  entities_ok hz w → entities_ok hz (set_hass h w).
Proof. now intros [Hm He]. Qed.

Lemma do_step_entities_ok (hz : string) (s : step) (w : World) :
  entities_ok hz w → entities_ok hz (do_step s w).1.
Proof.
  intros Hw. destruct s as [i feed|feed|ev]; cbn [do_step].
  - destruct (Hass.tasks (hass w) !! i) as [k|]; [|exact Hw].
    match goal with |- context [set_hass ?h w] =>
      pose proof (entities_ok_set_hass hz h w Hw) as Hw'; revert Hw';
      generalize (set_hass h w) end.
    intros w' Hw'. destruct k; cbn [run_task].
    + now apply async_update_entities_ok.
    + now apply async_remove_entities_ok.
    + now apply async_update_ha_state_entities_ok.
    + exact Hw'.
  - cbn [fst]. apply (foldl_preserves (entities_ok hz)); [|exact Hw].
    intros w' [k [[|tag] i]] Hw'; cbn; [|exact Hw'].
    now apply async_update_entities_ok.
  - cbn [fst]. apply (foldl_preserves (entities_ok hz)).
    + intros w' [ev' [| |tag]] Hw'; cbn; [| |exact Hw'].
      * unfold async_init. destruct Hw' as [Hm He]. now split.
      * destruct Hw' as [Hm He]. now split.
    + now apply entities_ok_set_hass.
Qed.

Lemma run_entities_ok (hz : string) (ss : list step) (w : World) :
  entities_ok hz w → entities_ok hz (run ss w).
Proof.
  unfold run. apply (foldl_preserves (entities_ok hz)).
  intros w' s. apply do_step_entities_ok.
Qed.

Lemma setup_entities_ok (h : Hass.t) (config : ConfigType) :
  entities_ok (adapter_hazard h config) (async_setup_platform h config).
Proof. split; [reflexivity|]. intros self e H. cbn in H. now rewrite lookup_empty in H. Qed.

End Loop.

(** ** The title attribute *)

Lemma title_attribute_absent (e : LocationEvent.t) :
  _title e = VNone → device_state_attributes e !! ATTR_TITLE = None.
Proof.
  intros H. rewrite (attributes_lookup e ATTR_TITLE (_title e)).
  - now rewrite H.
  - apply list_elem_of_here.
Qed.

(** C9.  The derived attribute map never has the key "title".  A refresh
    stores the entry's title in [_name], whatever becomes of the refresh
    afterwards, and no refresh assigns [_title], which starts as None: so for
    an entity taken through any sequence of refreshes, and for every entity
    of every world the host's loop can reach from the bootstrap, [_title] is
    None and the map has no "title". *)
Theorem title_never_in_attributes :
  (∀ (fe : FeedEntry.t) (e : LocationEvent.t),
     _name (_update_from_feed fe e).1 = FeedEntry.title fe
     ∧ _title (_update_from_feed fe e).1 = _title e)
  ∧ (∀ (m : Manager.t) (external_id : string) (feed : list FeedEntry.t),
       let e := foldl (λ e fe, (_update_from_feed fe e).1)
                  (LocationEvent.__init__ m external_id) feed in
       _title e = VNone ∧ device_state_attributes e !! ATTR_TITLE = None)
  ∧ (∀ (h : Hass.t) (config : ConfigType) (ss : list Platform.step)
       (self : nat) (e : LocationEvent.t),
       Platform.entities (Platform.run ss (Platform.async_setup_platform h config)) !! self
       = Some e →
       _title e = VNone ∧ device_state_attributes e !! ATTR_TITLE = None).
Proof.
  split; [|split].
  - intros fe e. split; [|apply update_from_feed_keeps].
    unfold _update_from_feed.
    destruct (FeedEntry.otherAdvice fe); try reflexivity.
    destruct (FeedEntry.adviceOther fe); try reflexivity.
    destruct (FeedEntry.diversions fe); reflexivity.
  - intros m external_id feed e.
    assert (H : _title e = VNone).
    { subst e. apply (foldl_preserves (λ e, _title e = VNone)); [|reflexivity].
      intros e fe <-. apply update_from_feed_keeps. }
    split; [exact H | now apply title_attribute_absent].
  - intros h config ss self e He.
    destruct (run_entities_ok _ ss _ (setup_entities_ok h config)) as [_ Hall].
    destruct (Hall self e He) as [H _].
    split; [exact H | now apply title_attribute_absent].
Qed.

Lemma title_never_in_attributes_witness :
  _title (entity_of world1 0) = VNone
  ∧ device_state_attributes (entity_of world1 0) !! ATTR_TITLE = None.
Proof.
  apply (proj2 (proj2 title_never_in_attributes) hass0 (config_of "incident" "open")
           [Platform.Task 0 feed1] 0%nat).
  vm_compute. reflexivity.
Defined.

(** ** The hazard classification *)

(** C10.  The entity's hazard classification is the manager's, copied by the
    constructor, and neither a refresh nor the attach hook assigns it.  So in
    every world the host's loop can reach from the bootstrap, whatever feeds
    were retrieved on the way, every entity has the classification the
    bootstrap derived, and with it one and the same icon, picture and
    featureType attribute. *)
Theorem hazard_fixed_at_construction :
  (∀ (m : Manager.t) (external_id : string),
     _hazard (LocationEvent.__init__ m external_id) = Manager._hazard m)
  ∧ (∀ (fe : FeedEntry.t) (e : LocationEvent.t),
       _hazard (_update_from_feed fe e).1 = _hazard e)
  ∧ (∀ (m : Manager.t) (e : LocationEvent.t),
       _hazard (LocationEvent.async_update m e).1 = _hazard e)
  ∧ (∀ (self : nat) (e : LocationEvent.t) (h : Hass.t),
       _hazard (async_added_to_hass self e h).1 = _hazard e)
  ∧ (∀ (h : Hass.t) (config : ConfigType) (ss : list Platform.step)
       (self : nat) (e : LocationEvent.t),
       Platform.entities (Platform.run ss (Platform.async_setup_platform h config)) !! self
       = Some e →
       let hz := adapter_hazard h config in
       _hazard e = hz
       ∧ icon e = icon (event_of hz)
       ∧ picture e = picture (event_of hz)
       ∧ device_state_attributes e !! ATTR_FEATURE_TYPE
         = if String.eqb hz "" then None else Some (VStr hz)).
Proof.
  split; [reflexivity|]. split; [intros; apply update_from_feed_keeps|].
  split; [intros; apply async_update_keeps|]. split; [reflexivity|].
  intros h config ss self e He hz.
  destruct (run_entities_ok _ ss _ (setup_entities_ok h config)) as [_ Hall].
  destruct (Hall self e He) as [_ H]. fold hz in H. clearbody hz.
  split; [exact H|]. unfold icon, picture. rewrite H. do 2 (split; [reflexivity|]).
  rewrite (attributes_lookup e ATTR_FEATURE_TYPE (VStr (_hazard e))).
  - rewrite H. unfold kept. cbn. rewrite orb_false_r. now destruct (String.eqb hz "").
  - apply list_elem_of_further, list_elem_of_here.
Qed.

Lemma hazard_fixed_at_construction_witness :
  _hazard (entity_of world1 0) = "incident-open"
  ∧ icon (entity_of world1 0) = "mdi:alert"
  ∧ picture (entity_of world1 0)
    = VStr "https://www.livetraffic.com/images/icons/hazard/traffic-incident.gif"
  ∧ device_state_attributes (entity_of world1 0) !! ATTR_FEATURE_TYPE
    = Some (VStr "incident-open").
Proof.
  apply (proj2 (proj2 (proj2 (proj2 hazard_fixed_at_construction)))
           hass0 (config_of "incident" "open") [Platform.Task 0 feed1] 0%nat).
  vm_compute. reflexivity.
Defined.

(** ** The recurring timer *)

(** C8.  [init()] registers exactly one recurring timer: its action is the
    manager's update, which asks the adapter for one refresh, and its interval
    is the manager's scan interval, which the bootstrap takes from the
    configuration and, failing that, sets to five minutes.  [init()] is not
    idempotent: a second call registers a second such timer, under a new
    handle, and the manager then holds the handle of the second only. *)
Theorem init_schedules_one_timer (m : Manager.t) (h : Hass.t) :
  let m1 := (Manager.async_init m h).1 in
  let h1 := (Manager.async_init m h).2 in
  let m2 := (Manager.async_init m1 h1).1 in
  let h2 := (Manager.async_init m1 h1).2 in
  let k := Hass.next_handle h in
  let timer (k : Hass.handle) := (k, (Hass.FeedManagerUpdate, Manager._scan_interval m)) in
  (Hass.time_interval h1 = (Hass.time_interval h ++ [timer k])%list
   ∧ Manager._track_time_remove_callback m1 = Some k)
  ∧ (∀ feed w,
       Platform.run_action Hass.FeedManagerUpdate feed w = Platform.async_update feed w
       ∧ Platform.update_calls (Platform.async_update feed w) = S (Platform.update_calls w))
  ∧ (∀ h' config,
       Manager._scan_interval (Platform.manager (Platform.async_setup_platform h' config))
       = default SCAN_INTERVAL (CONF_SCAN_INTERVAL config))
  ∧ SCAN_INTERVAL = 5 * 60
  ∧ (Hass.time_interval h2 = (Hass.time_interval h ++ [timer k; timer (S k)])%list
     ∧ Manager._track_time_remove_callback m2 = Some (S k)
     ∧ length (Hass.update_timers h2) = (length (Hass.update_timers h) + 2)%nat).
Proof.
  cbv zeta. split; [split; reflexivity|]. split; [|split; [reflexivity|split; [reflexivity|]]].
  - intros feed w. split; [reflexivity | apply async_update_manager].
  - cbn. rewrite <- app_assoc. split; [reflexivity|]. split; [reflexivity|].
    unfold Hass.update_timers. cbn. rewrite filter_app, length_app. reflexivity.
Qed.

Section Timers.

Import Platform.

Lemma no_update_timer_nil (h : Hass.t) :
  no_update_timer h ↔ Hass.update_timers h = [].
Proof.
  unfold no_update_timer, Hass.update_timers.
  induction (Hass.time_interval h) as [|r l IH]; [split; [reflexivity|]|].
  - intros _ r Hr. inversion Hr.
  - destruct (decide (r.2.1 = Hass.FeedManagerUpdate)) as [E|E].
    + rewrite filter_cons_True by assumption. split; [|discriminate].
      intros H. destruct (H r); [left | exact E].
    + rewrite filter_cons_False by assumption. rewrite <- IH. split.
      * intros H r' Hr'. apply H. now right.
      * intros H r' Hr'. apply elem_of_cons in Hr' as [->|Hr']; auto.
Qed.

Lemma quiet_refl (w : World) : quiet w w.
Proof. repeat split; auto. Qed.

Lemma quiet_trans (w1 w2 w3 : World) : quiet w1 w2 → quiet w2 w3 → quiet w1 w3.
Proof.
  intros (A1 & B1 & C1) (A2 & B2 & C2). repeat split; [congruence ..|auto].
Qed.

Lemma quiet_timer_inv (w w' : World) : quiet w w' → timer_inv w → timer_inv w'.
Proof.
  intros (A & B & C) (I1 & I2 & I3). unfold timer_inv, timers_known, no_update_timer.
  rewrite A, B. repeat split; [|exact I2|]; intros; [apply I1 | apply I3]; auto.
Qed.

Lemma quiet_no_update_timer (w w' : World) :
  quiet w w' → no_update_timer (hass w) → no_update_timer (hass w').
Proof. intros (_ & _ & C) H r Hr. apply H, C, Hr. Qed.

Lemma async_update_quiet (feed : gmap string FeedEntry.t) (w : World) :
  quiet w (Platform.async_update feed w).
Proof.
  pose proof (async_update_schedule feed w) as [= Ht Hb].
  destruct (async_update_manager feed w) as (_ & Hc & _).
  repeat split; [exact Hc | exact Hb | now rewrite Ht].
Qed.

Lemma call_remove_timers (k : Hass.handle) (h : Hass.t) :
  ∀ r, r ∈ Hass.time_interval (Hass.call_remove k h) → r ∈ Hass.time_interval h.
Proof. intros r Hr. cbn in Hr. now apply list_elem_of_filter in Hr as [_ Hr]. Qed.

Lemma async_remove_quiet (self : nat) (w : World) : quiet w (async_remove self w).1.
Proof.
  unfold async_remove. destruct (entities w !! self) as [e|]; [|apply quiet_refl].
  unfold async_will_remove_from_hass.
  destruct (_remove_signal_delete e) as [kd|]; [|repeat split; auto].
  destruct (_remove_signal_update e) as [ku|]; cbn;
    (repeat split; [reflexivity ..|]); intros r Hr.
  - apply list_elem_of_filter in Hr as [_ Hr].
    now apply list_elem_of_filter in Hr as [_ Hr].
  - now apply list_elem_of_filter in Hr as [_ Hr].
Qed.

Lemma async_update_ha_state_quiet (self : nat) (w : World) :
  quiet w (async_update_ha_state self w).1.
Proof.
  unfold async_update_ha_state.
  destruct (entities w !! self) as [e|]; [|apply quiet_refl].
  destruct (LocationEvent.async_update (manager w) e). repeat split; auto.
Qed.

Lemma run_task_quiet (k : Hass.task) (feed : gmap string FeedEntry.t) (w : World) :
  quiet w (run_task k feed w).1.
Proof.
  destruct k; cbn [run_task fst];
    auto using async_update_quiet, async_remove_quiet,
               async_update_ha_state_quiet, quiet_refl.
Qed.

(** Running a task, or letting the timers fire, is quiet. *)
Lemma do_step_quiet (s : step) (w : World) :
  (∀ ev, s ≠ Event ev) → quiet w (do_step s w).1.
Proof.
  intros Hs. destruct s as [i feed|feed|ev]; [| |now destruct (Hs ev)]; cbn [do_step].
  - destruct (Hass.tasks (hass w) !! i) as [k|]; [|apply quiet_refl].
    eapply quiet_trans; [|apply run_task_quiet]. repeat split; auto.
  - cbn [fst]. apply (foldl_preserves (quiet w)); [|apply quiet_refl].
    intros w' [k [[|tag] i]] Hw'; cbn; [|exact Hw'].
    eapply quiet_trans; [exact Hw' | apply async_update_quiet].
Qed.

End Timers.

Section Starting.

Import Platform.

Lemma starts_cons (r : string * Hass.listener) (l : list (string * Hass.listener)) :
  starts (r :: l)
  = ((if decide (r.2 = Hass.start_feed_manager) then 1 else 0) + starts l)%nat.
Proof.
  unfold starts. destruct (decide _) as [E|E].
  - now rewrite filter_cons_True.
  - now rewrite filter_cons_False.
Qed.

Lemma starts_split (ev : string) (l : list (string * Hass.listener)) :
  (starts (filter (λ r, r.1 = ev) l) + starts (filter (λ r, r.1 ≠ ev) l))%nat
  = starts l.
Proof.
  induction l as [|r l IH]; [reflexivity|].
  rewrite starts_cons. destruct (decide (r.1 = ev)) as [E|E].
  - rewrite filter_cons_True, (filter_cons_False (λ r, r.1 ≠ ev)) by tauto.
    rewrite starts_cons. lia.
  - rewrite filter_cons_False, (filter_cons_True (λ r, r.1 ≠ ev)) by tauto.
    rewrite starts_cons. lia.
Qed.

Lemma async_stop_quiet (w : World) : quiet w (Platform.async_stop w).
Proof.
  unfold Platform.async_stop, Manager.async_stop, quiet. cbn.
  destruct (Manager._track_time_remove_callback (manager w)) as [k|];
    repeat split; auto. apply call_remove_timers.
Qed.

Lemma quiet_timers_known (w w' : World) :
  quiet w w' → timers_known w → timers_known w'.
Proof. intros (A & _ & C) H r Hr E. rewrite A. apply H; auto. Qed.

(** Where no timer runs the update yet, [init()] leaves exactly its own. *)
Lemma async_init_timers_known (w : World) :
  no_update_timer (hass w) → timers_known (Platform.async_init w).
Proof.
  intros H r Hr E. cbn in Hr |- *.
  apply elem_of_app in Hr as [Hr|Hr]; [now destruct (H r Hr)|].
  apply list_elem_of_singleton in Hr as ->. reflexivity.
Qed.

Lemma run_listeners_inv (l : list (string * Hass.listener)) : ∀ w : World,
  timers_known w → (starts l ≤ 1)%nat →
  (starts l = 1%nat → no_update_timer (hass w)) →
  let w' := foldl (λ w r, run_listener r.2 w) w l in
  timers_known w'
  ∧ Hass.bus_once (hass w') = Hass.bus_once (hass w)
  ∧ (starts l = 0%nat → no_update_timer (hass w) → no_update_timer (hass w')).
Proof.
  induction l as [|[ev x] l IH]; intros w Hk Hle Hone; [now repeat split|].
  rewrite starts_cons in Hle, Hone |- *. cbn [foldl snd] in *.
  destruct x as [| |tag]; cbn [run_listener].
  - rewrite decide_True in Hle, Hone |- * by reflexivity.
    destruct (IH (Platform.async_init w)) as (K & B & _);
      [apply async_init_timers_known, Hone; lia | lia | intros; lia |].
    split; [exact K|]. split; [rewrite B; reflexivity | intros; lia].
  - rewrite decide_False in Hle, Hone |- * by discriminate.
    pose proof (async_stop_quiet w) as Q.
    destruct (IH (Platform.async_stop w)) as (K & B & N);
      [eapply quiet_timers_known; eauto | lia
      | intros; eapply quiet_no_update_timer; eauto |].
    split; [exact K|]. split; [rewrite B; apply Q|].
    intros E Hn. apply N; [exact E|]. eapply quiet_no_update_timer; eauto.
  - rewrite decide_False in Hle, Hone |- * by discriminate.
    now apply IH.
Qed.

Lemma event_timer_inv (ev : string) (w : World) :
  timer_inv w → timer_inv (do_step (Event ev) w).1.
Proof.
  intros (I1 & I2 & I3). cbn [do_step fst].
  assert (Hsplit :
    let b := starts (Hass.bus_once (hass w)) in
    let d := starts (filter (λ r, r.1 = ev) (Hass.bus_once (hass w))) in
    let r := starts (filter (λ r, r.1 ≠ ev) (Hass.bus_once (hass w))) in
    (d ≤ 1 ∧ (d = 1 → b = 1) ∧ r ≤ 1 ∧ (r = 1 → d = 0 ∧ b = 1))%nat).
  { pose proof (starts_split ev (Hass.bus_once (hass w))) as H.
    clear -I2 H. revert I2 H.
    generalize (starts (Hass.bus_once (hass w))).
    generalize (starts (filter (λ r, r.1 = ev) (Hass.bus_once (hass w)))).
    generalize (starts (filter (λ r, r.1 ≠ ev) (Hass.bus_once (hass w)))).
    intros. cbv zeta. lia. }
  cbv zeta in Hsplit. destruct Hsplit as (Hd & Hdb & Hr & Hrd).
  match goal with |- timer_inv (foldl _ ?w0 ?due) =>
    destruct (run_listeners_inv due w0) as (K & B & N) end.
  - exact I1.
  - exact Hd.
  - intros E. apply I3, Hdb, E.
  - split; [exact K|]. rewrite B. cbn. split; [exact Hr|].
    intros E. destruct (Hrd E) as [E0 Eb]. apply N; [exact E0|]. apply I3, Eb.
Qed.

Lemma do_step_timer_inv (s : step) (w : World) :
  timer_inv w → timer_inv (do_step s w).1.
Proof.
  destruct s as [i feed|feed|ev]; [| |apply event_timer_inv];
    apply quiet_timer_inv, do_step_quiet; discriminate.
Qed.

Lemma run_timer_inv (ss : list step) (w : World) :
  timer_inv w → timer_inv (run ss w).
Proof.
  unfold run. apply (foldl_preserves timer_inv).
  intros w' s. apply do_step_timer_inv.
Qed.

Lemma setup_timer_inv (h : Hass.t) (config : ConfigType) :
  unaware h → timer_inv (async_setup_platform h config).
Proof.
  intros [Ht Hb]. apply no_update_timer_nil in Ht.
  assert (Hs : starts (Hass.bus_once (hass (async_setup_platform h config))) = 1%nat).
  { cbn. unfold starts in *. rewrite <- app_assoc, filter_app, length_app, Hb.
    reflexivity. }
  split; [|split].
  - intros r Hr E. now destruct (Ht r Hr).
  - lia.
  - intros _. exact Ht.
Qed.

(** After [stop()] no timer runs the manager's update. *)
Lemma async_stop_no_update_timer (w : World) :
  timers_known w → no_update_timer (hass (Platform.async_stop w)).
Proof.
  intros Hk r Hr E. cbn in Hr. unfold Manager.async_stop in Hr.
  destruct (Manager._track_time_remove_callback (manager w)) as [k|] eqn:Hc.
  - cbn in Hr. apply list_elem_of_filter in Hr as [Hne Hr].
    specialize (Hk r Hr E). congruence.
  - specialize (Hk r Hr E). congruence.
Qed.

(** Without such a timer, the firing of the timers changes nothing. *)
Lemma tick_without_update_timer (feed : gmap string FeedEntry.t) (w : World) :
  no_update_timer (hass w) → do_step (Tick feed) w = (w, Ok tt).
Proof.
  intros H. cbn [do_step]. f_equal. unfold no_update_timer in H.
  induction (Hass.time_interval (hass w)) as [|r l IH]; [reflexivity|].
  cbn [foldl]. destruct r as [k [[|tag] i]]; cbn [run_action snd fst].
  - destruct (H (k, (Hass.FeedManagerUpdate, i))); [left | reflexivity].
  - apply IH. intros r Hr. apply H. now right.
Qed.

Lemma run_quiet (ss : list step) (w : World) :
  Forall (λ s, ∀ ev, s ≠ Event ev) ss → quiet w (run ss w).
Proof.
  unfold run. revert w. induction ss as [|s ss IH]; intros w Hss; [apply quiet_refl|].
  apply Forall_cons in Hss as [Hs Hss]. cbn [foldl].
  eapply quiet_trans; [apply (do_step_quiet s w Hs) | apply IH, Hss].
Qed.

(** Once the manager was started and stopped, nothing the host does brings a
    timer back. *)
Lemma do_step_settled (s : step) (w : World) : settled w → settled (do_step s w).1.
Proof.
  intros [Hb Hn].
  destruct s as [i feed|feed|ev];
    [assert (Q : quiet w (do_step (Task i feed) w).1) by (apply do_step_quiet; discriminate)
    |assert (Q : quiet w (do_step (Tick feed) w).1) by (apply do_step_quiet; discriminate)
    |].
  1,2: split; [destruct Q as (_ & -> & _); exact Hb
              | eapply quiet_no_update_timer; eauto].
  cbn [do_step fst].
  assert (Hsplit :
    (starts (filter (λ r, r.1 = ev) (Hass.bus_once (hass w))) = 0
     ∧ starts (filter (λ r, r.1 ≠ ev) (Hass.bus_once (hass w))) = 0)%nat).
  { pose proof (starts_split ev (Hass.bus_once (hass w))) as H.
    clear -Hb H. revert Hb H.
    generalize (starts (Hass.bus_once (hass w))).
    generalize (starts (filter (λ r, r.1 = ev) (Hass.bus_once (hass w)))).
    generalize (starts (filter (λ r, r.1 ≠ ev) (Hass.bus_once (hass w)))).
    intros. lia. }
  destruct Hsplit as [Hd Hr].
  match goal with |- settled (foldl _ ?w0 ?due) =>
    destruct (run_listeners_inv due w0) as (_ & B & N) end.
  - intros r Hr' E. now destruct (Hn r Hr').
  - rewrite Hd. lia.
  - rewrite Hd. discriminate.
  - split; [rewrite B; exact Hr | apply N; [exact Hd | exact Hn]].
Qed.

Lemma run_settled (ss : list step) (w : World) : settled w → settled (run ss w).
Proof.
  unfold run. apply (foldl_preserves settled). intros w' s. apply do_step_settled.
Qed.

End Starting.

(** C7.  [stop()] calls the cancel function of the timer when the manager
    holds one, which takes that timer off the host; it does nothing when
    [init()] was never called.  In every world the host's loop can reach from
    the bootstrap, on a host that knew nothing of the manager before, no timer
    runs the manager's update once [stop()] has returned.  From then on the
    firing of the timers leaves the world, and so the adapter, untouched:
    whatever the host does next if the start event had been delivered before
    the stop, and otherwise for as long as it is not delivered. *)
Theorem stop_cancels_timer :
  (∀ (m : Manager.t) (h : Hass.t) (k : Hass.handle),
     Manager._track_time_remove_callback m = Some k →
     Hass.time_interval (Manager.async_stop m h)
     = filter (λ r, r.1 ≠ k) (Hass.time_interval h))
  ∧ (∀ (m : Manager.t) (h : Hass.t),
       Manager._track_time_remove_callback m = None → Manager.async_stop m h = h)
  ∧ (∀ scan_interval coordinates radius_in_km categories hazard (h : Hass.t),
       Manager.async_stop
         (Manager.__init__ scan_interval coordinates radius_in_km categories hazard) h
       = h)
  ∧ (∀ (h : Hass.t) (config : ConfigType) (ss : list Platform.step),
       unaware h →
       let w := Platform.async_stop
                  (Platform.run ss (Platform.async_setup_platform h config)) in
       Hass.update_timers (Platform.hass w) = []
       ∧ (∀ (ss' : list Platform.step) (feed : gmap string FeedEntry.t),
            starts (Hass.bus_once (Platform.hass w)) = 0%nat →
            Platform.do_step (Platform.Tick feed) (Platform.run ss' w)
            = (Platform.run ss' w, Ok tt))
       ∧ (∀ (ss' : list Platform.step) (feed : gmap string FeedEntry.t),
            Forall (λ s, ∀ ev, s ≠ Platform.Event ev) ss' →
            Platform.do_step (Platform.Tick feed) (Platform.run ss' w)
            = (Platform.run ss' w, Ok tt))).
Proof.
  split; [|split; [|split]].
  - intros m h k Hk. unfold Manager.async_stop. now rewrite Hk.
  - intros m h Hk. unfold Manager.async_stop. now rewrite Hk.
  - reflexivity.
  - intros h config ss Hh w.
    pose proof (run_timer_inv ss _ (setup_timer_inv h config Hh)) as (Hk & _).
    pose proof (async_stop_no_update_timer _ Hk) as Hn. fold w in Hn.
    split; [now apply no_update_timer_nil|]. split.
    + intros ss' feed Hs. apply tick_without_update_timer.
      now apply run_settled.
    + intros ss' feed Hss'. apply tick_without_update_timer.
      eapply quiet_no_update_timer; [apply run_quiet, Hss' | exact Hn].
Qed.

Lemma stop_cancels_timer_witness :
  let started :=
    Platform.run [Platform.Event EVENT_HOMEASSISTANT_START; Platform.Task 0 feed1;
                  Platform.Tick feed1] world0 in
  let stopped := Platform.async_stop started in
  let later :=
    Platform.run [Platform.Task 0 ∅; Platform.Event EVENT_HOMEASSISTANT_STOP] stopped in
  length (Hass.update_timers (Platform.hass started)) = 1%nat
  ∧ Platform.update_calls started = 2%nat
  ∧ Hass.update_timers (Platform.hass stopped) = []
  ∧ Platform.do_step (Platform.Tick ∅) later = (later, Ok tt)
  ∧ Platform.do_step (Platform.Tick ∅) (Platform.run [Platform.Task 0 ∅] stopped)
    = (Platform.run [Platform.Task 0 ∅] stopped, Ok tt).
Proof.
  cbv zeta. split; [vm_compute; reflexivity|]. split; [vm_compute; reflexivity|].
  assert (Hh : unaware hass0) by (split; reflexivity).
  destruct (proj2 (proj2 (proj2 stop_cancels_timer)) hass0 (config_of "incident" "open")
              [Platform.Event EVENT_HOMEASSISTANT_START; Platform.Task 0 feed1;
               Platform.Tick feed1] Hh) as (H1 & H2 & H3).
  split; [exact H1|]. split.
  - apply H2. vm_compute. reflexivity.
  - apply H3. repeat constructor; discriminate.
Defined.

(* ====================================================================== *)
(** * Further properties *)
(* ====================================================================== *)

(** ** Signals and subscriptions *)

Section Signals.

Import Platform.

Lemma append_inj_l (p a b : string) : p +:+ a = p +:+ b → a = b.
Proof. induction p as [|c p IH]; cbn; [auto|]. intros [= H]. auto. Qed.

Lemma signal_names (a b : string) :
  (SIGNAL_DELETE_ENTITY a = SIGNAL_DELETE_ENTITY b → a = b)
  ∧ (SIGNAL_UPDATE_ENTITY a = SIGNAL_UPDATE_ENTITY b → a = b)
  ∧ SIGNAL_DELETE_ENTITY a ≠ SIGNAL_UPDATE_ENTITY b.
Proof.
  split; [apply append_inj_l|]. split; [apply append_inj_l|].
  unfold SIGNAL_DELETE_ENTITY, SIGNAL_UPDATE_ENTITY. cbn. discriminate.
Qed.

Lemma connected_connect (s s' : string) (tg : Hass.target) (h : Hass.t) :
  Hass.connected s' (Hass.async_dispatcher_connect s tg h).2
  = (Hass.connected s' h ++ if decide (s = s') then [tg] else [])%list.
Proof.
  unfold Hass.connected. cbn. rewrite filter_app, fmap_app. f_equal.
  destruct (decide (s = s')) as [E|E].
  - now rewrite filter_cons_True.
  - now rewrite filter_cons_False.
Qed.

(** What is connected to a signal once an entity is attached. *)
Lemma added_to_hass_connected (self : nat) (e : LocationEvent.t) (h : Hass.t)
    (s : string) :
  Hass.connected s (async_added_to_hass self e h).2
  = ((Hass.connected s h
      ++ (if decide (SIGNAL_DELETE_ENTITY (_external_id e) = s)
          then [Hass.DeleteCallback self] else []))
      ++ (if decide (SIGNAL_UPDATE_ENTITY (_external_id e) = s)
          then [Hass.UpdateCallback self] else []))%list.
Proof.
  unfold async_added_to_hass.
  pose proof (connected_connect (SIGNAL_DELETE_ENTITY (_external_id e)) s
                (Hass.DeleteCallback self) h) as H1.
  destruct (Hass.async_dispatcher_connect _ _ h) as [kd h1] eqn:E1.
  cbn [snd] in H1.
  pose proof (connected_connect (SIGNAL_UPDATE_ENTITY (_external_id e)) s
                (Hass.UpdateCallback self) h1) as H2.
  change (_external_id (set_remove_signal_delete (Some kd) e)) with (_external_id e).
  destruct (Hass.async_dispatcher_connect _ _ h1) as [ku h2] eqn:E2.
  cbn [snd] in H2 |- *. now rewrite H2, H1.
Qed.

Lemma run_targets (l : list Hass.target) : ∀ h : Hass.t,
  foldl (λ h tg, run_target tg h) h l
  = Hass.mk (Hass.config_latitude h) (Hass.config_longitude h) (Hass.next_handle h)
      (Hass.time_interval h) (Hass.dispatcher h) (Hass.bus_once h)
      (Hass.tasks h ++ (l ≫= scheduled)).
Proof.
  induction l as [|tg l IH]; intros h.
  - cbn. rewrite app_nil_r. now destruct h.
  - cbn [foldl]. rewrite IH. destruct tg; cbn; rewrite <- ?app_assoc; reflexivity.
Qed.

Lemma dispatcher_send_tasks (signal : string) (h : Hass.t) :
  Hass.tasks (async_dispatcher_send signal h)
  = (Hass.tasks h ++ (Hass.connected signal h ≫= scheduled))%list.
Proof. unfold async_dispatcher_send. now rewrite run_targets. Qed.

Lemma generate_fields (external_id : string) (w : World) :
  let w1 := _generate_entity external_id w in
  let e1 := (async_added_to_hass (next_entity w)
               (LocationEvent.__init__ (manager w) external_id) (hass w)).1 in
  let h1 := (async_added_to_hass (next_entity w)
               (LocationEvent.__init__ (manager w) external_id) (hass w)).2 in
  manager w1 = manager w
  ∧ next_entity w1 = S (next_entity w)
  ∧ entities w1 = <[next_entity w := e1]> (entities w)
  ∧ hass w1 = Hass.async_create_task (Hass.EntityUpdateState (next_entity w)) h1.
Proof. repeat split. Qed.

End Signals.

(** X1.  The channel names are faithful to the external id: two ids give two
    delete channels and two update channels, and no delete channel is an
    update channel. *)
Theorem signal_names_distinct (a b : string) :
  (SIGNAL_DELETE_ENTITY a = SIGNAL_DELETE_ENTITY b → a = b)
  ∧ (SIGNAL_UPDATE_ENTITY a = SIGNAL_UPDATE_ENTITY b → a = b)
  ∧ SIGNAL_DELETE_ENTITY a ≠ SIGNAL_UPDATE_ENTITY b.
Proof. apply signal_names. Qed.

Lemma signal_names_distinct_witness :
  SIGNAL_DELETE_ENTITY "1234" ≠ SIGNAL_DELETE_ENTITY "5678".
Proof.
  intros H. apply (proj1 (signal_names_distinct "1234" "5678")) in H.
  discriminate H.
Defined.

(** X2.  Attaching an entity connects its delete callback to the delete
    channel of its external id and its update callback to the update channel,
    behind what was connected before, and connects nothing to any other
    signal; the entity keeps the two unsubscribe functions, and no task or
    timer is added. *)
Theorem attach_connects (self : nat) (e : LocationEvent.t) (h : Hass.t) :
  let e1 := (async_added_to_hass self e h).1 in
  let h1 := (async_added_to_hass self e h).2 in
  Hass.connected (SIGNAL_DELETE_ENTITY (_external_id e)) h1
  = (Hass.connected (SIGNAL_DELETE_ENTITY (_external_id e)) h
     ++ [Hass.DeleteCallback self])%list
  ∧ Hass.connected (SIGNAL_UPDATE_ENTITY (_external_id e)) h1
    = (Hass.connected (SIGNAL_UPDATE_ENTITY (_external_id e)) h
       ++ [Hass.UpdateCallback self])%list
  ∧ (∀ s, s ≠ SIGNAL_DELETE_ENTITY (_external_id e) →
          s ≠ SIGNAL_UPDATE_ENTITY (_external_id e) →
          Hass.connected s h1 = Hass.connected s h)
  ∧ _remove_signal_delete e1 = Some (Hass.next_handle h)
  ∧ _remove_signal_update e1 = Some (S (Hass.next_handle h))
  ∧ Hass.tasks h1 = Hass.tasks h
  ∧ Hass.time_interval h1 = Hass.time_interval h.
Proof.
  cbv zeta.
  pose proof (signal_names (_external_id e) (_external_id e)) as (_ & _ & Hne).
  split; [|split; [|split]].
  - rewrite added_to_hass_connected, decide_True, decide_False by auto.
    now rewrite app_nil_r.
  - rewrite added_to_hass_connected, decide_False, decide_True by auto.
    now rewrite app_nil_r.
  - intros s H1 H2. rewrite added_to_hass_connected, !decide_False by auto.
    now rewrite !app_nil_r.
  - repeat split.
Qed.

Lemma attach_connects_witness :
  Hass.connected (SIGNAL_DELETE_ENTITY "5678") (async_added_to_hass 0 event0 hass0).2 = [].
Proof.
  destruct (attach_connects 0 event0 hass0) as (_ & _ & H & _).
  rewrite H; [reflexivity | discriminate | discriminate].
Defined.

(** X3.  Sending a signal schedules, in order of subscription, the removal
    of every entity whose delete callback is connected to it and the refresh
    of every entity whose update callback is; it changes nothing else on the
    host. *)
Theorem signal_schedules_connected (signal : string) (h : Hass.t) :
  Platform.async_dispatcher_send signal h
  = Hass.mk (Hass.config_latitude h) (Hass.config_longitude h) (Hass.next_handle h)
      (Hass.time_interval h) (Hass.dispatcher h) (Hass.bus_once h)
      (Hass.tasks h ++ (Hass.connected signal h ≫= scheduled)).
Proof. apply run_targets. Qed.


(** X4.  An entity constructed for an id hears nothing until its attach
    hook has run: while nothing is connected to the channels of the id, the
    manager's update and remove callbacks for it change nothing.  Once the
    hook has run, the update callback for the id schedules exactly one
    refresh of that entity and the remove callback exactly its removal, and
    the callbacks for any other id schedule what they scheduled before. *)
Theorem attached_entity_hears_signals (external_id : string) (w : Platform.World)
    (self : nat) :
  Hass.connected (SIGNAL_UPDATE_ENTITY external_id) (Platform.hass w) = [] →
  Hass.connected (SIGNAL_DELETE_ENTITY external_id) (Platform.hass w) = [] →
  let e0 := LocationEvent.__init__ (Platform.manager w) external_id in
  let w1 := Platform.set_hass (async_added_to_hass self e0 (Platform.hass w)).2 w in
  (Platform._update_entity external_id w = w
   ∧ Platform._remove_entity external_id w = w)
  ∧ Hass.tasks (Platform.hass (Platform._update_entity external_id w1))
    = (Hass.tasks (Platform.hass w) ++ [Hass.EntityUpdateState self])%list
  ∧ Hass.tasks (Platform.hass (Platform._remove_entity external_id w1))
    = (Hass.tasks (Platform.hass w) ++ [Hass.EntityAsyncRemove self])%list
  ∧ (∀ other, other ≠ external_id →
       Hass.tasks (Platform.hass (Platform._update_entity other w1))
       = Hass.tasks (Platform.hass (Platform._update_entity other w))
       ∧ Hass.tasks (Platform.hass (Platform._remove_entity other w1))
         = Hass.tasks (Platform.hass (Platform._remove_entity other w))).
Proof.
  intros Hu Hd e0 w1.
  pose proof (added_to_hass_connected self e0 (Platform.hass w)) as Hc.
  change (_external_id e0) with external_id in Hc.
  pose proof (signal_names external_id external_id) as (_ & _ & Hne).
  split; [|split; [|split]].
  - unfold Platform._update_entity, Platform._remove_entity,
      Platform.async_dispatcher_send.
    rewrite Hu, Hd. now destruct w.
  - cbn [Platform._update_entity Platform.hass]. rewrite dispatcher_send_tasks.
    cbn [w1 Platform.set_hass Platform.hass].
    rewrite Hc, Hu, decide_False, decide_True by auto. reflexivity.
  - cbn [Platform._remove_entity Platform.hass]. rewrite dispatcher_send_tasks.
    cbn [w1 Platform.set_hass Platform.hass].
    rewrite Hc, Hd, decide_True, decide_False by auto. reflexivity.
  - intros other Hother.
    pose proof (signal_names other external_id) as (I1 & I2 & N1).
    pose proof (signal_names external_id other) as (_ & _ & N2).
    split.
    + cbn [Platform._update_entity Platform.hass]. rewrite !dispatcher_send_tasks.
      cbn [w1 Platform.set_hass Platform.hass].
      rewrite Hc, !decide_False, !app_nil_r; [reflexivity | |]; intros E; auto.
    + cbn [Platform._remove_entity Platform.hass]. rewrite !dispatcher_send_tasks.
      cbn [w1 Platform.set_hass Platform.hass].
      rewrite Hc, !decide_False, !app_nil_r; [reflexivity | |]; intros E; auto.
Qed.

Lemma attached_entity_hears_signals_witness :
  let w1 := Platform.set_hass
              (async_added_to_hass 0 event0 (Platform.hass world0)).2 world0 in
  Platform._remove_entity "1234" world0 = world0
  ∧ Hass.tasks (Platform.hass (Platform._remove_entity "1234" w1))
    = [Hass.ManagerAsyncUpdate; Hass.EntityAsyncRemove 0]
  ∧ Hass.tasks (Platform.hass (Platform._remove_entity "5678" w1))
    = [Hass.ManagerAsyncUpdate].
Proof.
  destruct (attached_entity_hears_signals "1234" world0 0 eq_refl eq_refl)
    as ((_ & H0) & _ & H1 & H2).
  split; [exact H0|]. split; [exact H1|].
  destruct (H2 "5678") as [_ H]; [discriminate | exact H].
Defined.

(** ** Detaching *)

Section Detaching.

Lemma update_from_feed_handles (fe : FeedEntry.t) (e : LocationEvent.t) :
  _remove_signal_delete (_update_from_feed fe e).1 = _remove_signal_delete e
  ∧ _remove_signal_update (_update_from_feed fe e).1 = _remove_signal_update e.
Proof.
  unfold _update_from_feed.
  destruct (FeedEntry.otherAdvice fe); try (split; reflexivity).
  destruct (FeedEntry.adviceOther fe); try (split; reflexivity).
  destruct (FeedEntry.diversions fe); split; reflexivity.
Qed.

Lemma refreshes_keep_handles (feed : list FeedEntry.t) (e : LocationEvent.t) :
  let e' := foldl (λ e fe, (_update_from_feed fe e).1) e feed in
  _remove_signal_delete e' = _remove_signal_delete e
  ∧ _remove_signal_update e' = _remove_signal_update e.
Proof.
  cbv zeta. apply (foldl_preserves
    (λ e', _remove_signal_delete e' = _remove_signal_delete e
           ∧ _remove_signal_update e' = _remove_signal_update e)); [|now split].
  intros e' fe [<- <-]. apply update_from_feed_handles.
Qed.

(** Cancelling a handle that is not older than the next one to be issued
    changes no registration made before. *)
Lemma filter_fresh_timers (k : Hass.handle) (h : Hass.t) :
  Hass.fresh h → (Hass.next_handle h ≤ k)%nat →
  filter (λ r, r.1 ≠ k) (Hass.time_interval h) = Hass.time_interval h.
Proof.
  intros [Ft _] Hk. apply filter_all. eapply Forall_impl; [exact Ft|].
  intros [k' ?] Hr. unfold Hass.handle in *. cbn in *. lia.
Qed.

Lemma filter_fresh_dispatcher (k : Hass.handle) (h : Hass.t) :
  Hass.fresh h → (Hass.next_handle h ≤ k)%nat →
  filter (λ r, r.1 ≠ k) (Hass.dispatcher h) = Hass.dispatcher h.
Proof.
  intros [_ Fd] Hk. apply filter_all. eapply Forall_impl; [exact Fd|].
  intros [k' ?] Hr. unfold Hass.handle in *. cbn in *. lia.
Qed.

Lemma attach_then_detach (self : nat) (e0 : LocationEvent.t) (h0 : Hass.t)
    (e2 : LocationEvent.t) :
  Hass.fresh h0 →
  _remove_signal_delete e2 = _remove_signal_delete (async_added_to_hass self e0 h0).1 →
  _remove_signal_update e2 = _remove_signal_update (async_added_to_hass self e0 h0).1 →
  async_will_remove_from_hass e2 (async_added_to_hass self e0 h0).2
  = (Hass.mk (Hass.config_latitude h0) (Hass.config_longitude h0)
       (S (S (Hass.next_handle h0))) (Hass.time_interval h0) (Hass.dispatcher h0)
       (Hass.bus_once h0) (Hass.tasks h0), Ok tt).
Proof.
  intros Hf Hd Hu.
  rewrite (will_remove_attached e2 _ (Hass.next_handle h0) (S (Hass.next_handle h0)))
    by (rewrite ?Hd, ?Hu; reflexivity).
  f_equal. unfold Hass.call_remove. cbn. f_equal.
  - rewrite !filter_fresh_timers; auto.
  - rewrite filter_filter_and, !filter_app.
    rewrite <- (filter_filter_and (λ r, r.1 ≠ Hass.next_handle h0)
                  (λ r, r.1 ≠ S (Hass.next_handle h0)) (Hass.dispatcher h0)).
    rewrite !filter_fresh_dispatcher by auto.
    rewrite !filter_cons_False, filter_nil, !app_nil_r; cbn; tauto.
Qed.

End Detaching.

(** X5.  An entity that was never attached has no unsubscribe functions: its
    detach hook raises AttributeError and leaves the host as it is, and no
    refresh changes that. *)
Theorem detach_unattached_raises (m : Manager.t) (external_id : string)
    (feed : list FeedEntry.t) (h : Hass.t) :
  let e := foldl (λ e fe, (_update_from_feed fe e).1)
             (LocationEvent.__init__ m external_id) feed in
  async_will_remove_from_hass e h = (h, Raise AttributeError).
Proof.
  cbv zeta. unfold async_will_remove_from_hass.
  destruct (refreshes_keep_handles feed (LocationEvent.__init__ m external_id)) as [-> _].
  reflexivity.
Qed.

(** X6.  On a host whose handles in use are older than the next one,
    detaching undoes attaching, whatever refreshes, completed or failed, came
    in between: the hook succeeds and subscriptions, timers, listeners and
    tasks are what they were before the entity was attached. *)
Theorem detach_undoes_attach (self : nat) (e0 : LocationEvent.t) (h0 : Hass.t)
    (feed : list FeedEntry.t) :
  Hass.fresh h0 →
  let e1 := (async_added_to_hass self e0 h0).1 in
  let h1 := (async_added_to_hass self e0 h0).2 in
  let e2 := foldl (λ e fe, (_update_from_feed fe e).1) e1 feed in
  ∃ h2, async_will_remove_from_hass e2 h1 = (h2, Ok tt)
        ∧ Hass.dispatcher h2 = Hass.dispatcher h0
        ∧ Hass.time_interval h2 = Hass.time_interval h0
        ∧ Hass.bus_once h2 = Hass.bus_once h0
        ∧ Hass.tasks h2 = Hass.tasks h0
        ∧ ∀ signal, Hass.connected signal h2 = Hass.connected signal h0.
Proof.
  intros Hf e1 h1 e2.
  destruct (refreshes_keep_handles feed e1) as [Hd Hu]. fold e2 in Hd, Hu.
  eexists. split; [exact (attach_then_detach self e0 h0 e2 Hf Hd Hu)|].
  repeat split.
Qed.

Lemma detach_undoes_attach_witness :
  let e1 := (async_added_to_hass 0 event0 hass0).1 in
  let h1 := (async_added_to_hass 0 event0 hass0).2 in
  let e2 := (_update_from_feed entry_without_advice e1).1 in
  ∃ h2, async_will_remove_from_hass e2 h1 = (h2, Ok tt) ∧ Hass.dispatcher h2 = [].
Proof.
  assert (Hf : Hass.fresh hass0) by (split; constructor).
  destruct (detach_undoes_attach 0 event0 hass0 [entry_without_advice] Hf)
    as (h2 & Hrun & Hd & _).
  exists h2. split; [exact Hrun | exact Hd].
Defined.

(** ** Refreshes *)

Section Refreshes.

Import Platform.

Lemma update_from_feed_result (fe : FeedEntry.t) (e : LocationEvent.t) :
  (_update_from_feed fe e).2 =
  if is_str (FeedEntry.otherAdvice fe) && is_str (FeedEntry.adviceOther fe)
     && is_str (FeedEntry.diversions fe)
  then Ok tt else Raise TypeError.
Proof.
  unfold _update_from_feed.
  destruct (FeedEntry.otherAdvice fe); try reflexivity.
  destruct (FeedEntry.adviceOther fe); try reflexivity.
  destruct (FeedEntry.diversions fe); reflexivity.
Qed.

(** A completed refresh, with the texts of the three stripped fields. *)
Lemma update_from_feed_completed (fe : FeedEntry.t) (e : LocationEvent.t) :
  (_update_from_feed fe e).2 = Ok tt →
  ∃ oa ao dv, FeedEntry.otherAdvice fe = VStr oa
              ∧ FeedEntry.adviceOther fe = VStr ao
              ∧ FeedEntry.diversions fe = VStr dv.
Proof.
  rewrite update_from_feed_result.
  destruct (FeedEntry.otherAdvice fe) as [| | | |oa|]; try discriminate.
  destruct (FeedEntry.adviceOther fe) as [| | | |ao|]; try discriminate.
  destruct (FeedEntry.diversions fe) as [| | | |dv|]; try discriminate.
  intros _. now exists oa, ao, dv.
Qed.

(** On the tuple of a pair's two items the refresh from an entry object is
    the refresh from the entry. *)
Lemma update_from_feed_with_pair (fe : FeedEntry.t) (e : LocationEvent.t) :
  _update_from_feed_with
    (PyTuple [(FeedEntry.coordinates fe).1; (FeedEntry.coordinates fe).2]) fe e
  = _update_from_feed fe e.
Proof. reflexivity. Qed.

Lemma update_from_feed_with_result (c : tuple_or_none) (fe : FeedEntry.t)
    (e : LocationEvent.t) :
  (_update_from_feed_with c fe e).2 =
  if is_str (FeedEntry.otherAdvice fe) && is_str (FeedEntry.adviceOther fe)
     && is_str (FeedEntry.diversions fe)
  then match c with
       | PyNone => Raise TypeError
       | PyTuple (_ :: _ :: _) => Ok tt
       | PyTuple _ => Raise IndexError
       end
  else Raise TypeError.
Proof.
  unfold _update_from_feed_with.
  destruct (FeedEntry.otherAdvice fe); try reflexivity.
  destruct (FeedEntry.adviceOther fe); try reflexivity.
  destruct (FeedEntry.diversions fe); try reflexivity.
  destruct c as [|[|a [|b items]]]; reflexivity.
Qed.

Lemma run_callback_keeps_entities (cb : FeedManager.callback) (w : World) :
  (next_entity w ≤ next_entity (run_callback cb w))%nat
  ∧ ∀ self, (self < next_entity w)%nat →
      entities (run_callback cb w) !! self = entities w !! self.
Proof.
  destruct cb as [i|i|i]; cbn; (split; [lia|]); [|reflexivity ..].
  intros self Hs. apply lookup_insert_ne. lia.
Qed.

End Refreshes.


(** X7.  Which refreshes raise.  A refresh raises TypeError when
    [otherAdvice], [adviceOther] or [diversions] of the entry is not a
    string.  When the three are strings, what is left to fail are the two
    subscripts of [coordinates]: on [None] the refresh raises TypeError, on a
    tuple of fewer than two items IndexError, and on a tuple of two or more
    it completes, whatever the other fields hold.  On an entry with its
    coordinate pair the refresh is the one on the tuple of the pair's two
    items, so it raises only in the first case. *)
Theorem refresh_raises_exactly (c : tuple_or_none) (fe : FeedEntry.t)
    (e : LocationEvent.t) :
  (_update_from_feed_with c fe e).2
  = (if is_str (FeedEntry.otherAdvice fe) && is_str (FeedEntry.adviceOther fe)
        && is_str (FeedEntry.diversions fe)
     then match c with
          | PyNone => Raise TypeError
          | PyTuple (_ :: _ :: _) => Ok tt
          | PyTuple _ => Raise IndexError
          end
     else Raise TypeError)
  ∧ (_update_from_feed fe e).2
    = (if is_str (FeedEntry.otherAdvice fe) && is_str (FeedEntry.adviceOther fe)
          && is_str (FeedEntry.diversions fe)
       then Ok tt else Raise TypeError)
  ∧ _update_from_feed fe e
    = _update_from_feed_with
        (PyTuple [(FeedEntry.coordinates fe).1; (FeedEntry.coordinates fe).2]) fe e.
Proof.
  split; [apply update_from_feed_with_result|].
  split; [apply update_from_feed_result|].
  symmetry. apply update_from_feed_with_pair.
Qed.

(** X8.  A refresh that raises leaves a torn entity.  Attribution, name,
    category, external id, publication date and description are already the
    entry's and the longitude is still the old one.  If the refresh raised
    in a substitution, one of the three stripped fields not being a string,
    then diversions, type, sub-category, duration, feature type, road,
    council area, picture, distance and latitude are still what they were.
    If it raised in a subscript of [coordinates], then these are all new but
    the latitude, which is new only when the tuple has a first item. *)
Theorem failed_refresh_is_partial (c : tuple_or_none) (fe : FeedEntry.t)
    (e : LocationEvent.t) (x : exn) :
  (_update_from_feed_with c fe e).2 = Raise x →
  let e' := (_update_from_feed_with c fe e).1 in
  let strings :=
    is_str (FeedEntry.otherAdvice fe) && is_str (FeedEntry.adviceOther fe)
    && is_str (FeedEntry.diversions fe) in
  (_attribution e' = FeedEntry.attribution fe
   ∧ _name e' = FeedEntry.title fe
   ∧ _category e' = FeedEntry.category fe
   ∧ _external_id e' = FeedEntry.external_id fe
   ∧ _publication_date e' = FeedEntry.publication_date fe
   ∧ _description e' = FeedEntry.description fe)
  ∧ _longitude e' = _longitude e
  ∧ (strings = false →
     x = TypeError
     ∧ _diversions e' = _diversions e
     ∧ _type e' = _type e
     ∧ _subCategory e' = _subCategory e
     ∧ _duration e' = _duration e
     ∧ _feature_type e' = _feature_type e
     ∧ _road e' = _road e
     ∧ _council_area e' = _council_area e
     ∧ _picture e' = _picture e
     ∧ _distance e' = _distance e
     ∧ _latitude e' = _latitude e)
  ∧ (strings = true →
     (∃ dv, FeedEntry.diversions fe = VStr dv ∧ _diversions e' = VStr (re_sub_tags dv))
     ∧ _type e' = FeedEntry.type fe
     ∧ _subCategory e' = FeedEntry.subCategory fe
     ∧ _duration e' = FeedEntry.duration fe
     ∧ _feature_type e' = Some (FeedEntry.feature_type fe)
     ∧ _road e' = FeedEntry.road fe
     ∧ _council_area e' = FeedEntry.council_area fe
     ∧ _picture e' = picture e
     ∧ _distance e' = FeedEntry.distance_to_home fe
     ∧ match c with
       | PyNone => x = TypeError ∧ _latitude e' = _latitude e
       | PyTuple [] => x = IndexError ∧ _latitude e' = _latitude e
       | PyTuple (lat :: _) => x = IndexError ∧ _latitude e' = lat
       end).
Proof.
  unfold _update_from_feed_with.
  destruct (FeedEntry.otherAdvice fe);
    try (intros [= <-]; cbv zeta; repeat split; try discriminate; reflexivity).
  destruct (FeedEntry.adviceOther fe);
    try (intros [= <-]; cbv zeta; repeat split; try discriminate; reflexivity).
  destruct (FeedEntry.diversions fe) as [| | | |dv|];
    try (intros [= <-]; cbv zeta; repeat split; try discriminate; reflexivity).
  destruct c as [|[|a [|b items]]]; try discriminate;
    intros [= <-]; cbv zeta; (split; [repeat split|]); (split; [reflexivity|]);
    (split; [discriminate|]); intros _; (split; [now exists dv|]); repeat split.
Qed.

Lemma failed_refresh_is_partial_witness :
  (_name (_update_from_feed_with PyNone entry_without_advice event1).1
   = VStr "HAZARD Flooding"
   ∧ _distance (_update_from_feed_with PyNone entry_without_advice event1).1
     = _distance event1)
  ∧ (_distance (_update_from_feed_with (PyTuple [VFloat (S754_finite true 33 0)])
                  (entry_with "1234" "Exercise caution" "") event0).1
     = VFloat (S754_finite false 5 0)
     ∧ _latitude (_update_from_feed_with (PyTuple [VFloat (S754_finite true 33 0)])
                    (entry_with "1234" "Exercise caution" "") event0).1
       = VFloat (S754_finite true 33 0)
     ∧ _longitude (_update_from_feed_with (PyTuple [VFloat (S754_finite true 33 0)])
                     (entry_with "1234" "Exercise caution" "") event0).1
       = VNone).
Proof.
  split.
  - destruct (failed_refresh_is_partial PyNone entry_without_advice event1 TypeError
                eq_refl) as ((_ & Hn & _) & _ & H & _).
    destruct (H eq_refl) as (_ & _ & _ & _ & _ & _ & _ & _ & _ & Hd & _).
    split; [exact Hn | exact Hd].
  - destruct (failed_refresh_is_partial (PyTuple [VFloat (S754_finite true 33 0)])
                (entry_with "1234" "Exercise caution" "") event0 IndexError eq_refl)
      as (_ & Hlon & _ & H).
    destruct (H eq_refl) as (_ & _ & _ & _ & _ & _ & _ & _ & Hd & _ & Hlat).
    split; [exact Hd|]. split; [exact Hlat | exact Hlon].
Defined.

(** X9.  A completed refresh leaves a state that depends on the entry and on
    what no refresh assigns, not on any earlier refresh: refreshing from a
    second entry after a first, completed or failed, gives the same entity as
    refreshing from the second alone. *)
Theorem last_refresh_wins (fe1 fe2 : FeedEntry.t) (e : LocationEvent.t) :
  (_update_from_feed fe2 e).2 = Ok tt →
  _update_from_feed fe2 (_update_from_feed fe1 e).1 = _update_from_feed fe2 e.
Proof.
  intros Hok. destruct (update_from_feed_completed fe2 e Hok) as (oa & ao & dv & Eoa & Eao & Edv).
  rewrite !(update_from_feed_ok fe2 _ oa ao dv Eoa Eao Edv).
  destruct (update_from_feed_keeps fe1 e) as [Ht Hh].
  destruct (update_from_feed_handles fe1 e) as [Hd Hu].
  unfold picture. rewrite Ht, Hh, Hd, Hu. reflexivity.
Qed.

Lemma last_refresh_wins_witness :
  _update_from_feed (entry_with "1234" "Exercise caution" "")
    (_update_from_feed entry_without_advice event0).1
  = _update_from_feed (entry_with "1234" "Exercise caution" "") event0.
Proof.
  apply (last_refresh_wins entry_without_advice
           (entry_with "1234" "Exercise caution" "") event0).
  reflexivity.
Defined.

(** X10.  While the manager holds an entry for an id from which a refresh
    completes, the first refresh of the entity generated for that id succeeds
    and gives the entity the entry's title as its name, the entry's distance
    and coordinates, and leaves it the manager's hazard classification. *)
Theorem generated_entity_first_refresh (external_id : string) (w : Platform.World)
    (fe : FeedEntry.t) :
  Manager.get_entry (Platform.manager w) external_id = Some fe →
  (_update_from_feed fe (LocationEvent.__init__ (Platform.manager w) external_id)).2
  = Ok tt →
  let self := Platform.next_entity w in
  let w1 := Platform._generate_entity external_id w in
  ∃ w2 e2,
    Platform.async_update_ha_state self w1 = (w2, Ok tt)
    ∧ Platform.entities w2 !! self = Some e2
    ∧ name e2 = FeedEntry.title fe
    ∧ distance e2 = FeedEntry.distance_to_home fe
    ∧ latitude e2 = (FeedEntry.coordinates fe).1
    ∧ longitude e2 = (FeedEntry.coordinates fe).2
    ∧ _external_id e2 = FeedEntry.external_id fe
    ∧ _hazard e2 = Manager._hazard (Platform.manager w).
Proof.
  intros Hget Hok self w1.
  destruct (update_from_feed_completed fe _ Hok) as (oa & ao & dv & Eoa & Eao & Edv).
  clear Hok. subst w1 self.
  pose proof (generate_fields external_id w) as G. cbv zeta in G.
  destruct G as (Hm & _ & He & _).
  set (e1 := (async_added_to_hass (Platform.next_entity w)
                (LocationEvent.__init__ (Platform.manager w) external_id)
                (Platform.hass w)).1) in *.
  unfold Platform.async_update_ha_state.
  rewrite He, lookup_insert_eq, Hm. unfold LocationEvent.async_update.
  change (_external_id e1) with external_id.
  rewrite Hget, (update_from_feed_ok fe e1 oa ao dv Eoa Eao Edv).
  eexists _, _. split; [reflexivity|]. cbn [Platform.entities].
  rewrite lookup_insert_eq. split; [reflexivity|]. repeat split.
Qed.

Lemma generated_entity_first_refresh_witness :
  ∃ w2 e2,
    Platform.async_update_ha_state 1 (Platform._generate_entity "1234" world1) = (w2, Ok tt)
    ∧ Platform.entities w2 !! 1%nat = Some e2
    ∧ name e2 = VStr "CRASH Car and truck".
Proof.
  destruct (generated_entity_first_refresh "1234" world1
              (entry_with "1234" "Exercise caution" "Allow <b>extra</b> time"))
    as (w2 & e2 & Hrun & He & Hn & _);
    [vm_compute; reflexivity | reflexivity |].
  exists w2, e2. split; [exact Hrun|]. split; [exact He | exact Hn].
Defined.

(** X11.  A manager refresh neither removes nor alters an entity the host
    has, whatever the feed: the remove callback only sends a signal, and new
    entities get identities not yet in use. *)
Theorem manager_update_keeps_entities (feed : gmap string FeedEntry.t)
    (w : Platform.World) (self : nat) :
  (self < Platform.next_entity w)%nat →
  Platform.entities (Platform.async_update feed w) !! self = Platform.entities w !! self
  ∧ (Platform.next_entity w ≤ Platform.next_entity (Platform.async_update feed w))%nat.
Proof.
  intros Hs. unfold Platform.async_update. cbn.
  match goal with |- context [foldl ?f ?a ?l] =>
    assert (H : (Platform.next_entity w ≤ Platform.next_entity (foldl f a l))%nat
                ∧ ∀ self, (self < Platform.next_entity w)%nat →
                    Platform.entities (foldl f a l) !! self = Platform.entities w !! self)
  end.
  { apply (foldl_preserves
      (λ w', (Platform.next_entity w ≤ Platform.next_entity w')%nat
             ∧ ∀ self, (self < Platform.next_entity w)%nat →
                 Platform.entities w' !! self = Platform.entities w !! self));
      [|split; [cbn; lia | reflexivity]].
    intros w' cb [Hn He]. destruct (run_callback_keeps_entities cb w') as [Hn' He'].
    split; [lia|]. intros s Hlt. rewrite He' by lia. now apply He. }
  destruct H as [Hn He]. split; [now apply He | exact Hn].
Qed.

Lemma manager_update_keeps_entities_witness :
  Platform.entities (Platform.async_update ∅ world1) !! 0%nat
  = Platform.entities world1 !! 0%nat.
Proof.
  apply (manager_update_keeps_entities ∅ world1 0). vm_compute. lia.
Defined.

(** ** Attributes, icon and picture *)

Section Pictures.

(** Icon and picture go by the same prefix. *)
Lemma picture_cases (e : LocationEvent.t) :
  (picture e = VNone ∧ icon e = "mdi:alarm-light"
   ∧ ∀ p, startswith (lower (_hazard e)) (prefix_text p) = false)
  ∨ ∃ p, picture e = VStr (picture_for p) ∧ icon e = icon_for p
         ∧ startswith (lower (_hazard e)) (prefix_text p) = true.
Proof.
  unfold picture, icon.
  destruct (startswith (lower (_hazard e)) "incident") eqn:E1;
    [right; now exists Incident|].
  destruct (startswith (lower (_hazard e)) "fire") eqn:E2;
    [right; now exists Fire|].
  destruct (startswith (lower (_hazard e)) "flood") eqn:E3;
    [right; now exists Flood|].
  destruct (startswith (lower (_hazard e)) "alpine") eqn:E4;
    [right; now exists Alpine|].
  destruct (startswith (lower (_hazard e)) "major") eqn:E5;
    [right; now exists Major|].
  destruct (startswith (lower (_hazard e)) "roadwork") eqn:E6;
    [right; now exists Roadwork|].
  left. repeat split. now intros [].
Qed.

Lemma icon_of_prefix (e : LocationEvent.t) (p : hazard_prefix) :
  startswith (lower (_hazard e)) (prefix_text p) = true →
  icon e = icon_for p ∧ picture e = VStr (picture_for p).
Proof.
  intros H. destruct (picture_cases e) as [(_ & _ & N)|(q & -> & -> & Hq)].
  - rewrite N in H. discriminate H.
  - destruct (decide (q = p)) as [->|Hne]; [now split|].
    rewrite (startswith_exclusive _ p q H Hne) in Hq. discriminate Hq.
Qed.

End Pictures.

(** X12.  Before its first refresh an entity with a non-empty hazard
    classification and external id shows exactly two attributes: featureType,
    the classification, and external_id. *)
Theorem new_entity_attributes (m : Manager.t) (external_id : string) :
  Manager._hazard m ≠ "" → external_id ≠ "" →
  device_state_attributes (LocationEvent.__init__ m external_id)
  = {[ ATTR_FEATURE_TYPE := VStr (Manager._hazard m);
       ATTR_EXTERNAL_ID := VStr external_id ]}.
Proof.
  intros Hh Hi. apply String.eqb_neq in Hh, Hi.
  unfold device_state_attributes, attribute_pairs, put_attribute. cbn.
  rewrite Hh, Hi. cbn. apply insert_insert_ne. discriminate.
Qed.

Lemma new_entity_attributes_witness :
  device_state_attributes event0
  = {[ ATTR_FEATURE_TYPE := VStr "incident-open"; ATTR_EXTERNAL_ID := VStr "1234" ]}.
Proof. apply (new_entity_attributes manager0 "1234"); discriminate. Defined.

(** X13.  After a completed refresh the entity_picture attribute is the URL
    of the picture property when the hazard classification matches a prefix,
    and is absent when it matches none. *)
Theorem picture_attribute (fe : FeedEntry.t) (e : LocationEvent.t) :
  (_update_from_feed fe e).2 = Ok tt →
  device_state_attributes (_update_from_feed fe e).1 !! ATTR_PICTURE
  = match picture e with VStr url => Some (VStr url) | _ => None end.
Proof.
  intros Hok. destruct (update_from_feed_completed fe e Hok) as (oa & ao & dv & Eoa & Eao & Edv).
  rewrite (update_from_feed_ok fe e oa ao dv Eoa Eao Edv). cbn [fst].
  match goal with |- device_state_attributes ?e' !! _ = _ =>
    rewrite (attributes_lookup e' ATTR_PICTURE (picture e)) end.
  - destruct (picture_cases e) as [(-> & _)|(p & -> & _)]; [reflexivity|].
    now destruct p.
  - unfold attribute_pairs. do 21 apply list_elem_of_further. apply list_elem_of_here.
Qed.

Lemma picture_attribute_witness :
  device_state_attributes event1 !! ATTR_PICTURE
  = Some (VStr "https://www.livetraffic.com/images/icons/hazard/traffic-incident.gif").
Proof.
  apply (picture_attribute (entry_with "1234" "Exercise caution" "") event0).
  reflexivity.
Defined.

(** X14.  Icon and picture agree: there is no picture exactly when the icon
    is the generic alarm icon. *)
Theorem picture_iff_icon (e : LocationEvent.t) :
  picture e = VNone ↔ icon e = "mdi:alarm-light".
Proof.
  destruct (picture_cases e) as [(-> & -> & _)|(p & -> & -> & _)]; [tauto|].
  split; [discriminate|]. now destruct p.
Qed.

Lemma picture_iff_icon_witness :
  picture (event_of "earthquake") = VNone
  ∧ icon (event_of "incident") ≠ "mdi:alarm-light".
Proof.
  split.
  - apply (proj2 (picture_iff_icon (event_of "earthquake"))). reflexivity.
  - intros H. apply (proj2 (picture_iff_icon (event_of "incident"))) in H.
    discriminate H.
Defined.

(** ** The hazards option *)

Section Hazards.

Lemma append_cons (c : ascii) (s t : string) : String c s +:+ t = String c (s +:+ t).
Proof. reflexivity. Qed.

Lemma lower_app (a b : string) : lower (a +:+ b) = lower a +:+ lower b.
Proof.
  induction a as [|c a IH]; [reflexivity|].
  cbn [lower]. rewrite !append_cons. cbn [lower]. now rewrite IH.
Qed.

Lemma lower_lower (s : string) : lower (lower s) = lower s.
Proof.
  induction s as [|c s IH]; [reflexivity|]. cbn [lower]. rewrite IH. f_equal.
  clear. destruct c as [[] [] [] [] [] [] [] []]; reflexivity.
Qed.

Lemma prefix_app (p s t : string) :
  String.prefix p s = true → String.prefix p (s +:+ t) = true.
Proof.
  revert s. induction p as [|a p IH]; intros s H; [now destruct (s +:+ t)|].
  destruct s as [|b s]; [discriminate H|]. rewrite append_cons. cbn in H |- *.
  destruct (ascii_dec a b); [auto | discriminate H].
Qed.

(** The key of a configuration is in lower case and starts with the
    lowercased category. *)
Lemma adapter_hazard_lower (h : Hass.t) (config : ConfigType) :
  lower (adapter_hazard h config) = adapter_hazard h config.
Proof.
  unfold adapter_hazard. cbn. destruct (String.eqb _ _).
  - apply lower_lower.
  - now rewrite !lower_app, !lower_lower.
Qed.

Lemma adapter_hazard_prefix (h : Hass.t) (config : ConfigType) (p : string) :
  String.prefix p (lower (CONF_HAZARDS config)) = true →
  String.prefix p (adapter_hazard h config) = true.
Proof.
  intros H. unfold adapter_hazard. cbn.
  destruct (String.eqb _ _); [exact H | now apply prefix_app].
Qed.

End Hazards.

(** X15.  The validator of the hazards option admits a raw value exactly
    when it is one of the six category names, as text and in lower case, and
    returns it unchanged; None, booleans, integers and any other text are
    rejected. *)
Theorem hazards_option_admits (raw : Schema.scalar) (hz : string) :
  Schema.hazards raw = Some hz ↔
  raw = Schema.Text hz
  ∧ hz ∈ ["alpine"; "fire"; "flood"; "incident"; "majorevent"; "roadwork"].
Proof. apply hazards_accepts. Qed.

Lemma hazards_option_admits_witness :
  Schema.hazards (Schema.Text "majorevent") = Some "majorevent"
  ∧ Schema.hazards (Schema.Text "Incident") = None.
Proof.
  split.
  - apply (proj2 (hazards_option_admits (Schema.Text "majorevent") "majorevent")).
    split; [reflexivity | in_pairs].
  - destruct (Schema.hazards (Schema.Text "Incident")) as [hz|] eqn:E; [|reflexivity].
    apply (proj1 (hazards_option_admits _ _)) in E as [[= <-] H].
    exfalso. repeat (apply elem_of_cons in H as [H|H]; [discriminate H|]).
    inversion H.
Defined.

(** X16.  For a configuration whose hazard category the schema admits, and
    whatever its hazards state, every new entity of the manager has the icon
    and the picture of that category; the generic alarm icon does not
    occur. *)
Theorem admitted_hazard_icon (h : Hass.t) (config : ConfigType)
    (raw : Schema.scalar) (external_id : string) :
  Schema.hazards raw = Some (CONF_HAZARDS config) →
  let e := LocationEvent.__init__
             (Platform.manager (Platform.async_setup_platform h config)) external_id in
  (CONF_HAZARDS config, icon e, picture e)
  ∈ [ ("alpine", "mdi:snowflake-alert", VStr (picture_for Alpine));
      ("fire", "mdi:fire", VStr (picture_for Fire));
      ("flood", "mdi:home-flood", VStr (picture_for Flood));
      ("incident", "mdi:alert", VStr (picture_for Incident));
      ("majorevent", "mdi:party-popper", VStr (picture_for Major));
      ("roadwork", "mdi:road-variant", VStr (picture_for Roadwork)) ].
Proof.
  intros Hraw e. apply hazards_accepts in Hraw as [_ Hin].
  assert (Hp : ∀ p, String.prefix (prefix_text p) (lower (CONF_HAZARDS config)) = true →
                    icon e = icon_for p ∧ picture e = VStr (picture_for p)).
  { intros p Hp. apply icon_of_prefix. unfold startswith.
    change (_hazard e) with (adapter_hazard h config).
    rewrite adapter_hazard_lower. now apply adapter_hazard_prefix. }
  clearbody e. revert Hin Hp. generalize (CONF_HAZARDS config). intros hz Hin Hp.
  unfold VALID_HAZARDS in Hin.
  apply elem_of_cons in Hin as [->|Hin];
    [destruct (Hp Alpine eq_refl) as [-> ->]; apply list_elem_of_here|].
  apply list_elem_of_further.
  apply elem_of_cons in Hin as [->|Hin];
    [destruct (Hp Fire eq_refl) as [-> ->]; apply list_elem_of_here|].
  apply list_elem_of_further.
  apply elem_of_cons in Hin as [->|Hin];
    [destruct (Hp Flood eq_refl) as [-> ->]; apply list_elem_of_here|].
  apply list_elem_of_further.
  apply elem_of_cons in Hin as [->|Hin];
    [destruct (Hp Incident eq_refl) as [-> ->]; apply list_elem_of_here|].
  apply list_elem_of_further.
  apply elem_of_cons in Hin as [->|Hin];
    [destruct (Hp Major eq_refl) as [-> ->]; apply list_elem_of_here|].
  apply list_elem_of_further.
  apply elem_of_cons in Hin as [->|Hin];
    [destruct (Hp Roadwork eq_refl) as [-> ->]; apply list_elem_of_here|].
  inversion Hin.
Qed.

Lemma admitted_hazard_icon_witness :
  let e := LocationEvent.__init__
             (Platform.manager (Platform.async_setup_platform hass0
                                  (config_of "majorevent" "None"))) "1234" in
  ("majorevent", icon e, picture e)
  ∈ [ ("alpine", "mdi:snowflake-alert", VStr (picture_for Alpine));
      ("fire", "mdi:fire", VStr (picture_for Fire));
      ("flood", "mdi:home-flood", VStr (picture_for Flood));
      ("incident", "mdi:alert", VStr (picture_for Incident));
      ("majorevent", "mdi:party-popper", VStr (picture_for Major));
      ("roadwork", "mdi:road-variant", VStr (picture_for Roadwork)) ].
Proof.
  exact (admitted_hazard_icon hass0 (config_of "majorevent" "None")
           (Schema.Text "majorevent") "1234" eq_refl).
Defined.

(** ** Starting, stopping and the bootstrap *)

Section Bootstrap.

Import Platform.

Lemma foreign_listeners_idle (l : list (string * Hass.listener)) (w : World) :
  Forall foreign l → foldl (λ w r, run_listener r.2 w) w l = w.
Proof.
  induction 1 as [|r l [tag Hr] _ IH]; [reflexivity|].
  cbn [foldl]. now rewrite Hr.
Qed.

Lemma Forall_filter_weak {A} (P Q : A → Prop) `{∀ x, Decision (Q x)} (l : list A) :
  Forall P l → Forall P (filter Q l).
Proof.
  induction 1 as [|x l Hx _ IH]; [constructor|].
  destruct (decide (Q x)).
  - rewrite filter_cons_True by assumption. now constructor.
  - now rewrite filter_cons_False.
Qed.

(** An event on a world whose listeners are foreign ones followed by one
    listener [l] of the manager, registered for [ev']. *)
Lemma event_step_foreign_then (ev ev' : string) (l : Hass.listener) (w : World)
    (others : list (string * Hass.listener)) :
  Hass.bus_once (hass w) = (others ++ [(ev', l)])%list →
  Forall foreign others →
  let h := hass w in
  let rest := filter (λ r : string * Hass.listener, r.1 ≠ ev) others in
  (do_step (Event ev) w).1 =
  if decide (ev' = ev)
  then run_listener l
         (set_hass (Hass.mk (Hass.config_latitude h) (Hass.config_longitude h)
                      (Hass.next_handle h) (Hass.time_interval h) (Hass.dispatcher h)
                      rest (Hass.tasks h)) w)
  else set_hass (Hass.mk (Hass.config_latitude h) (Hass.config_longitude h)
                   (Hass.next_handle h) (Hass.time_interval h) (Hass.dispatcher h)
                   (rest ++ [(ev', l)]) (Hass.tasks h)) w.
Proof.
  intros Hb Hf h rest. subst h rest. cbn [do_step fst]. rewrite Hb, !filter_app.
  destruct (decide (ev' = ev)) as [E|E].
  - rewrite (filter_cons_True (λ r, r.1 = ev)), (filter_cons_False (λ r, r.1 ≠ ev))
      by (cbn; tauto).
    rewrite !filter_nil, app_nil_r, foldl_app.
    rewrite (foreign_listeners_idle (filter _ others))
      by now apply Forall_filter_weak.
    reflexivity.
  - rewrite (filter_cons_False (λ r, r.1 = ev)), (filter_cons_True (λ r, r.1 ≠ ev))
      by (cbn; tauto).
    rewrite !filter_nil, app_nil_r, foreign_listeners_idle
      by now apply Forall_filter_weak.
    reflexivity.
Qed.

(** The same with two listeners of the manager, for the event of the first. *)
Lemma event_step_first_of_two (ev1 ev2 : string) (l1 l2 : Hass.listener) (w : World)
    (others : list (string * Hass.listener)) :
  Hass.bus_once (hass w) = (others ++ [(ev1, l1); (ev2, l2)])%list →
  Forall foreign others →
  ev2 ≠ ev1 →
  let h := hass w in
  (do_step (Event ev1) w).1 =
  run_listener l1
    (set_hass (Hass.mk (Hass.config_latitude h) (Hass.config_longitude h)
                 (Hass.next_handle h) (Hass.time_interval h) (Hass.dispatcher h)
                 (filter (λ r : string * Hass.listener, r.1 ≠ ev1) others ++ [(ev2, l2)])
                 (Hass.tasks h)) w).
Proof.
  intros Hb Hf Hne h. subst h. cbn [do_step fst]. rewrite Hb, !filter_app.
  rewrite (filter_cons_True (λ r, r.1 = ev1)), (filter_cons_False (λ r, r.1 ≠ ev1))
    by (cbn; tauto).
  rewrite (filter_cons_False (λ r, r.1 = ev1)), (filter_cons_True (λ r, r.1 ≠ ev1))
    by (cbn; tauto).
  rewrite !filter_nil, foldl_app.
  rewrite (foreign_listeners_idle (filter _ others))
    by now apply Forall_filter_weak.
  reflexivity.
Qed.

End Bootstrap.

(** X17.  On a host whose handles in use are older than the next one,
    [init()] followed by [stop()] leaves the host's timers and subscriptions
    exactly as they were.  After two [init()]s, [stop()] cancels the second
    timer only: the first stays registered, and the manager no longer holds
    its cancel function. *)
Theorem init_stop_round_trip (m : Manager.t) (h : Hass.t) :
  Hass.fresh h →
  let m1 := (Manager.async_init m h).1 in
  let h1 := (Manager.async_init m h).2 in
  let m2 := (Manager.async_init m1 h1).1 in
  let h2 := (Manager.async_init m1 h1).2 in
  (Hass.time_interval (Manager.async_stop m1 h1) = Hass.time_interval h
   ∧ Hass.dispatcher (Manager.async_stop m1 h1) = Hass.dispatcher h)
  ∧ Hass.time_interval (Manager.async_stop m2 h2)
    = (Hass.time_interval h
       ++ [(Hass.next_handle h, (Hass.FeedManagerUpdate, Manager._scan_interval m))])%list
  ∧ Manager._track_time_remove_callback m2 = Some (S (Hass.next_handle h)).
Proof.
  intros Hf. cbv zeta. cbn. split; [split|split; [|reflexivity]].
  - rewrite filter_app, (filter_fresh_timers _ h Hf) by lia.
    rewrite filter_cons_False by (cbn; tauto). now rewrite filter_nil, app_nil_r.
  - apply filter_fresh_dispatcher; [exact Hf | lia].
  - rewrite <- app_assoc, filter_app, (filter_fresh_timers _ h Hf) by lia.
    f_equal. cbn [app].
    rewrite filter_cons_True by (cbn; unfold Hass.handle; lia).
    rewrite filter_cons_False by (cbn; tauto). reflexivity.
Qed.

Lemma init_stop_round_trip_witness :
  let m1 := (Manager.async_init manager0 hass0).1 in
  let h1 := (Manager.async_init manager0 hass0).2 in
  let m2 := (Manager.async_init m1 h1).1 in
  let h2 := (Manager.async_init m1 h1).2 in
  Hass.time_interval (Manager.async_stop m1 h1) = []
  ∧ Hass.time_interval (Manager.async_stop m2 h2)
    = [(0%nat, (Hass.FeedManagerUpdate, 300))].
Proof.
  assert (Hf : Hass.fresh hass0) by (split; constructor).
  destruct (init_stop_round_trip manager0 hass0 Hf) as ((H1 & _) & H2 & _).
  split; [exact H1 | exact H2].
Defined.

(** X18.  From the bootstrap, on a host whose listeners all belong to other
    components: the bootstrap itself registers no timer; the start event
    registers the one timer, with the configured scan interval or else five
    minutes; a second start event registers nothing more, the listener having
    been used up; and the stop event takes the timer off again. *)
Theorem bootstrap_lifecycle (h : Hass.t) (config : ConfigType) :
  Hass.fresh h →
  Forall foreign (Hass.bus_once h) →
  let w0 := Platform.async_setup_platform h config in
  let w1 := (Platform.do_step (Platform.Event EVENT_HOMEASSISTANT_START) w0).1 in
  let w1' := (Platform.do_step (Platform.Event EVENT_HOMEASSISTANT_START) w1).1 in
  let w2 := (Platform.do_step (Platform.Event EVENT_HOMEASSISTANT_STOP) w1).1 in
  let timer := (Hass.next_handle h,
                (Hass.FeedManagerUpdate, default SCAN_INTERVAL (CONF_SCAN_INTERVAL config))) in
  Hass.time_interval (Platform.hass w0) = Hass.time_interval h
  ∧ Hass.time_interval (Platform.hass w1) = (Hass.time_interval h ++ [timer])%list
  ∧ Hass.time_interval (Platform.hass w1') = (Hass.time_interval h ++ [timer])%list
  ∧ Hass.time_interval (Platform.hass w2) = Hass.time_interval h.
Proof.
  intros Hf Ho w0 w1 w1' w2 timer.
  assert (E1 : w1 = Platform.run_listener Hass.start_feed_manager
                 (Platform.set_hass
                    (Hass.mk (Hass.config_latitude h) (Hass.config_longitude h)
                       (Hass.next_handle h) (Hass.time_interval h) (Hass.dispatcher h)
                       (filter (λ r : string * Hass.listener, r.1 ≠ EVENT_HOMEASSISTANT_START)
                          (Hass.bus_once h)
                        ++ [(EVENT_HOMEASSISTANT_STOP, Hass.stop_feed_manager)])
                       (Hass.tasks h ++ [Hass.ManagerAsyncUpdate])) w0)).
  { subst w1. rewrite (event_step_first_of_two _ EVENT_HOMEASSISTANT_STOP
                         Hass.start_feed_manager Hass.stop_feed_manager w0 (Hass.bus_once h));
      [reflexivity | | exact Ho | discriminate].
    cbn. now rewrite <- app_assoc. }
  assert (Hb1 : Hass.bus_once (Platform.hass w1)
                = (filter (λ r : string * Hass.listener, r.1 ≠ EVENT_HOMEASSISTANT_START)
                     (Hass.bus_once h)
                   ++ [(EVENT_HOMEASSISTANT_STOP, Hass.stop_feed_manager)])%list)
    by (rewrite E1; reflexivity).
  assert (Ho1 : Forall foreign
                  (filter (λ r : string * Hass.listener, r.1 ≠ EVENT_HOMEASSISTANT_START)
                     (Hass.bus_once h)))
    by now apply Forall_filter_weak.
  assert (T1 : Hass.time_interval (Platform.hass w1) = (Hass.time_interval h ++ [timer])%list)
    by (rewrite E1; reflexivity).
  split; [reflexivity|]. split; [exact T1|]. split.
  - subst w1'.
    rewrite (event_step_foreign_then EVENT_HOMEASSISTANT_START _ _ w1 _ Hb1 Ho1).
    rewrite decide_False by discriminate. exact T1.
  - subst w2.
    rewrite (event_step_foreign_then EVENT_HOMEASSISTANT_STOP _ _ w1 _ Hb1 Ho1).
    rewrite decide_True by reflexivity.
    cbn [Platform.run_listener Platform.async_stop Platform.hass Platform.set_hass
         Platform.manager].
    rewrite E1. cbn. rewrite filter_app, (filter_fresh_timers _ h Hf) by lia.
    rewrite filter_cons_False by (cbn; tauto). now rewrite filter_nil, app_nil_r.
Qed.

Lemma bootstrap_lifecycle_witness :
  let w1 := (Platform.do_step (Platform.Event EVENT_HOMEASSISTANT_START) world0).1 in
  let w2 := (Platform.do_step (Platform.Event EVENT_HOMEASSISTANT_STOP) w1).1 in
  Hass.time_interval (Platform.hass w1) = [(0%nat, (Hass.FeedManagerUpdate, 300))]
  ∧ Hass.time_interval (Platform.hass w2) = [].
Proof.
  assert (Hf : Hass.fresh hass0) by (split; constructor).
  assert (Ho : Forall foreign (Hass.bus_once hass0)) by constructor.
  destruct (bootstrap_lifecycle hass0 (config_of "incident" "open") Hf Ho)
    as (_ & H1 & _ & H2).
  split; [exact H1 | exact H2].
Defined.

(** X19.  The update the bootstrap schedules needs no timer: run as a task
    it asks the adapter for its first refresh while [init()] has not been
    called and no timer of the manager is registered. *)
Theorem bootstrap_first_update (h : Hass.t) (config : ConfigType)
    (feed : gmap string FeedEntry.t) :
  let w0 := Platform.async_setup_platform h config in
  let w := (Platform.do_step (Platform.Task (length (Hass.tasks h)) feed) w0).1 in
  Hass.tasks (Platform.hass w0) = (Hass.tasks h ++ [Hass.ManagerAsyncUpdate])%list
  ∧ Platform.update_calls w0 = 0%nat
  ∧ Platform.update_calls w = 1%nat
  ∧ Manager._track_time_remove_callback (Platform.manager w) = None
  ∧ Hass.time_interval (Platform.hass w) = Hass.time_interval h.
Proof.
  cbv zeta. split; [reflexivity|]. split; [reflexivity|].
  cbn [Platform.do_step].
  assert (E : Hass.tasks (Platform.hass (Platform.async_setup_platform h config))
              !! length (Hass.tasks h) = Some Hass.ManagerAsyncUpdate).
  { cbn. now rewrite list_lookup_middle. }
  rewrite E. cbn [Platform.run_task fst].
  match goal with |- context [Platform.async_update feed ?w] => set (wq := w) end.
  destruct (async_update_manager feed wq) as (_ & Hc & _ & Hu).
  pose proof (async_update_schedule feed wq) as [= Ht _].
  rewrite Hu, Hc, Ht. repeat split.
Qed.

(** ** The pattern *)

Section Matches.

Lemma tag_close_spec (s rest : string) :
  tag_close s = Some rest ↔
  ∃ body, s = body +:+ String ">" rest
          ∧ has_char "<" body = false ∧ has_char ">" body = false.
Proof.
  split.
  - revert rest. induction s as [|c r IH]; intros rest; cbn [tag_close]; [discriminate|].
    destruct (Ascii.eqb c ">") eqn:Egt.
    + intros [= ->]. apply Ascii.eqb_eq in Egt as ->. now exists "".
    + destruct (Ascii.eqb c "<") eqn:Elt; [discriminate|].
      intros H. destruct (IH _ H) as (body & -> & Hl & Hg).
      exists (String c body). cbn [has_char]. now rewrite Elt, Egt, Hl, Hg.
  - intros (body & -> & Hl & Hg). induction body as [|c body IH]; [reflexivity|].
    cbn [has_char] in Hl, Hg. apply orb_false_iff in Hl as [Hl1 Hl2].
    apply orb_false_iff in Hg as [Hg1 Hg2].
    rewrite append_cons. cbn [tag_close]. rewrite Hg1, Hl1. auto.
Qed.

Lemma tag_match_spec (s rest : string) :
  tag_match s = Some rest ↔
  ∃ c body, s = String "<" (String c (body +:+ String ">" rest))
            ∧ c ≠ "<"%char
            ∧ has_char "<" body = false ∧ has_char ">" body = false.
Proof.
  split.
  - destruct s as [|c0 [|c1 r]]; cbn [tag_match]; try discriminate.
    destruct (Ascii.eqb c0 "<") eqn:E0; [|discriminate].
    destruct (Ascii.eqb c1 "<") eqn:E1; [discriminate|]. cbn.
    intros H. apply tag_close_spec in H as (body & -> & Hl & Hg).
    apply Ascii.eqb_eq in E0 as ->. apply Ascii.eqb_neq in E1.
    now exists c1, body.
  - intros (c & body & -> & Hc & Hl & Hg). cbn.
    apply Ascii.eqb_neq in Hc. rewrite Hc. cbn.
    apply tag_close_spec. now exists body.
Qed.

Lemma re_sub_tags_plain_prefix (pre s : string) :
  has_char "<" pre = false → re_sub_tags (pre +:+ s) = pre +:+ re_sub_tags s.
Proof.
  induction pre as [|c pre IH]; [reflexivity|].
  cbn [has_char]. intros H. apply orb_false_iff in H as [Hc Hp].
  rewrite !append_cons, re_sub_tags_keep, IH; [reflexivity | exact Hp |].
  destruct (pre +:+ s); cbn; [reflexivity|]. now rewrite Hc.
Qed.

Lemma tag_match_suffix (s rest : string) :
  tag_match s = Some rest → ∃ pre, s = pre +:+ rest.
Proof.
  intros H. apply tag_match_spec in H as (c & body & -> & _).
  exists (String "<" (String c (body +:+ ">"))). rewrite !append_cons.
  do 2 f_equal. induction body as [|a b IH]; [reflexivity|].
  rewrite !append_cons. now f_equal.
Qed.

Lemma Subseq_skip_prefix (pre s t : string) : Subseq s t → Subseq s (pre +:+ t).
Proof. intros H. induction pre; cbn; [exact H | now constructor]. Qed.

Lemma Subseq_length (s t : string) :
  Subseq s t → (String.length s ≤ String.length t)%nat.
Proof. induction 1; cbn; lia. Qed.

Lemma re_sub_tags_Subseq (s : string) : Subseq (re_sub_tags s) s.
Proof.
  remember (String.length s) as n eqn:Hn.
  revert s Hn. induction n as [n IH] using lt_wf_ind. intros s ->.
  destruct s as [|c r]; [constructor|].
  destruct (tag_match (String c r)) as [rest|] eqn:E.
  - rewrite (re_sub_tags_drop _ _ E).
    pose proof (tag_match_length _ _ E) as Hlen.
    destruct (tag_match_suffix _ _ E) as [pre Hpre]. rewrite Hpre.
    apply Subseq_skip_prefix. eapply IH; [exact Hlen | reflexivity].
  - rewrite (re_sub_tags_keep _ _ E). constructor.
    eapply IH; [|reflexivity]. cbn. lia.
Qed.

End Matches.

(** X20.  The pattern matches at the head of a text exactly when the text
    is a "<", one character other than "<", a run of characters with neither
    "<" nor ">" in it, and a ">"; the match ends with that first ">". *)
Theorem pattern_match_shape (s rest : string) :
  tag_match s = Some rest ↔
  ∃ c body, s = String "<" (String c (body +:+ String ">" rest))
            ∧ c ≠ "<"%char
            ∧ has_char "<" body = false ∧ has_char ">" body = false.
Proof. apply tag_match_spec. Qed.

Lemma pattern_match_shape_witness : tag_match "<br/>next" = Some "next".
Proof.
  apply (proj2 (pattern_match_shape "<br/>next" "next")).
  exists "b"%char, "r/". repeat split. discriminate.
Defined.

(** X21.  A tag behind text without "<" is dropped and the text before it
    kept: stripping then goes on with what follows the tag. *)
Theorem strip_single_tag (pre body post : string) (c : ascii) :
  has_char "<" pre = false → c ≠ "<"%char →
  has_char "<" body = false → has_char ">" body = false →
  re_sub_tags (pre +:+ String "<" (String c (body +:+ String ">" post)))
  = pre +:+ re_sub_tags post.
Proof.
  intros Hpre Hc Hl Hg. rewrite (re_sub_tags_plain_prefix _ _ Hpre). f_equal.
  apply re_sub_tags_drop, tag_match_spec. now exists c, body.
Qed.

Lemma strip_single_tag_witness :
  re_sub_tags "Allow <b>extra time" = "Allow extra time".
Proof.
  apply (strip_single_tag "Allow " "" "extra time" "b");
    [reflexivity | discriminate | reflexivity ..].
Defined.

(** X22.  [cleanuphtml] only removes: given a string it returns that string
    with some characters left out, nothing added and nothing reordered, so
    never a longer one; given anything else it raises TypeError. *)
Theorem cleanuphtml_only_removes (prop : value) :
  match cleanuphtml prop with
  | Ok t => ∃ s, prop = VStr s ∧ Subseq t s
                 ∧ (String.length t ≤ String.length s)%nat
  | Raise x => x = TypeError ∧ ∀ s, prop ≠ VStr s
  end.
Proof.
  destruct prop; cbn; try (split; [reflexivity | discriminate]).
  eexists. split; [reflexivity|]. split; [apply re_sub_tags_Subseq|].
  apply Subseq_length, re_sub_tags_Subseq.
Qed.
